(** * A file-backed TODO service: model and verification

    The development embeds [server.js] -- an Express application that keeps
    a list of todos in [todos.json] -- and proves the properties its
    specification states about it.

    Modelling conventions.
    - A JavaScript string is the list of its UTF-16 code units ([text]).
    - The numbers the program computes with are ids: integer-valued
      Numbers, modelled by the integer they denote, in [Z].  The one
      addition the program performs is the addition of Numbers
      ([Number_add]), exact up to 2^53 and rounded beyond.  [parseInt] and
      an integer literal of the file are read as the integer written,
      which is the Number the program obtains when that integer is safe
      ([is_safe_integer]); the theorems that depend on it say so.  In the file a
      number that is not an integer literal is outside the model: the
      parser answers [PUnmodelled] for it and the operation that met it is
      [Stuck].  In a request body such a number is [JNonInteger].
    - The file system is the one file the program touches, with the two
      environment conditions under which reading and writing fail.
    - An [async] function is a computation in the monad [M]: it threads the
      [World] and either returns, throws a JavaScript error, or is [Stuck]
      (the model declines to answer).  Requests are handled one at a time. *)

From Stdlib Require Import List NArith ZArith Lia Bool Ascii String.
From Stdlib Require Decimal DecimalFacts DecimalPos DecimalN.
Import ListNotations.

#[local] Set Warnings "-register-all".
Local Open Scope N_scope.

(* ================================================================= *)
(** ** Strings *)

Definition text := list N.

(** An ASCII literal as code units. *)
Definition lit (s : string) : text := map N_of_ascii (list_ascii_of_string s).

Definition text_eqb (a b : text) : bool :=
  if list_eq_dec N.eq_dec a b then true else false.

(** WhiteSpace and LineTerminator code units, the set that
    [String.prototype.trim] and [parseInt] strip. *)
Definition is_space (c : N) : bool :=
  ((9 <=? c) && (c <=? 13)) || (c =? 32) || (c =? 160) || (c =? 5760)
  || ((8192 <=? c) && (c <=? 8202)) || (c =? 8232) || (c =? 8233)
  || (c =? 8239) || (c =? 8287) || (c =? 12288) || (c =? 65279).

Fixpoint trimStart (s : text) : text :=
  match s with
  | c :: r => if is_space c then trimStart r else s
  | [] => []
  end.

Definition trimEnd (s : text) : text := rev (trimStart (rev s)).

(** [title.trim()] *)
Definition trim (s : text) : text := trimEnd (trimStart s).

(* ================================================================= *)
(** ** [parseInt(string)] with no radix argument

    [None] is NaN. *)

Definition digit_value (radix c : N) : option N :=
  let v :=
    if (48 <=? c) && (c <=? 57) then Some (c - 48)
    else if (97 <=? c) && (c <=? 122) then Some (c - 87)
    else if (65 <=? c) && (c <=? 90) then Some (c - 55)
    else None in
  match v with
  | Some d => if d <? radix then Some d else None
  | None => None
  end.

(** The value of the longest prefix of digits, [None] when it is empty. *)
Fixpoint digits_prefix (radix : N) (acc : option N) (s : text) : option N :=
  match s with
  | c :: r =>
      match digit_value radix c with
      | Some d =>
          digits_prefix radix
            (Some (match acc with Some a => a * radix + d | None => d end)) r
      | None => acc
      end
  | [] => acc
  end.

Definition starts_with (c : N) (s : text) : bool :=
  match s with
  | x :: _ => x =? c
  | [] => false
  end.

(** The steps of the language definition: strip white space, read the
    sign, strip [0x] or [0X] and switch to radix 16, read the digits.  The
    value is the mathematical integer; JavaScript rounds it to a Number,
    which changes nothing below 2^53. *)
Definition parseInt (s : text) : option Z :=
  let s := trimStart s in
  let negative := starts_with 45 s in
  let s := if starts_with 45 s || starts_with 43 s then tl s else s in
  let hex := starts_with 48 s && (starts_with 120 (tl s) || starts_with 88 (tl s)) in
  let radix := if hex then 16 else 10 in
  let s := if hex then tl (tl s) else s in
  match digits_prefix radix None s with
  | Some n => Some (if negative then (- Z.of_N n)%Z else Z.of_N n)
  | None => None
  end.

(* ================================================================= *)
(** ** Todos and JSON values *)

Record Todo := {
  id : Z;
  title : text;
  completed : bool;
  createTime : text
}.

(** What [JSON.parse] returns, and what a request body holds.  [JNum] is
    a Number that is an integer; [JNonInteger] stands for any other Number
    a body can hold (a fraction, or the infinity of an overflowing
    literal), of which the program can only observe that it is a number
    and truthy. *)
Inductive json :=
| JNull
| JBool (b : bool)
| JNum (n : Z)
| JNonInteger
| JStr (s : text)
| JArr (elements : list json)
| JObj (members : list (text * json)).

Definition k_id : text := Eval cbv in lit "id".
Definition k_title : text := Eval cbv in lit "title".
Definition k_completed : text := Eval cbv in lit "completed".
Definition k_createTime : text := Eval cbv in lit "createTime".

(** The object a stored todo is: its four properties in the order in which
    the program creates them. *)
Definition json_of_todo (t : Todo) : json :=
  JObj [ (k_id, JNum (id t)); (k_title, JStr (title t));
         (k_completed, JBool (completed t)); (k_createTime, JStr (createTime t)) ].

Definition todo_of_json (j : json) : option Todo :=
  match j with
  | JObj [ (k1, JNum n); (k2, JStr t); (k3, JBool c); (k4, JStr ct) ] =>
      if text_eqb k1 k_id && text_eqb k2 k_title
         && text_eqb k3 k_completed && text_eqb k4 k_createTime
      then Some {| id := n; title := t; completed := c; createTime := ct |}
      else None
  | _ => None
  end.

Fixpoint todos_of_elements (l : list json) : option (list Todo) :=
  match l with
  | [] => Some []
  | j :: r =>
      match todo_of_json j, todos_of_elements r with
      | Some t, Some ts => Some (t :: ts)
      | _, _ => None
      end
  end.

(** The parsed document read as a sequence of todos; [None] when it is
    anything else. *)
Definition todos_of_json (j : json) : option (list Todo) :=
  match j with
  | JArr l => todos_of_elements l
  | _ => None
  end.

(* ================================================================= *)
(** ** [JSON.stringify(todos, null, 2)] *)

Definition is_high_surrogate (c : N) : bool := (55296 <=? c) && (c <=? 56319).
Definition is_low_surrogate (c : N) : bool := (56320 <=? c) && (c <=? 57343).

Definition hex_digit (d : N) : N := if d <? 10 then 48 + d else 87 + d.

(** [\uXXXX], lower-case hexadecimal. *)
Definition unicode_escape (c : N) : text :=
  [92; 117; hex_digit (c / 4096 mod 16); hex_digit (c / 256 mod 16);
   hex_digit (c / 16 mod 16); hex_digit (c mod 16)].

Definition quote_unit (c : N) : text :=
  if c =? 8 then [92; 98]
  else if c =? 9 then [92; 116]
  else if c =? 10 then [92; 110]
  else if c =? 12 then [92; 102]
  else if c =? 13 then [92; 114]
  else if c =? 34 then [92; 34]
  else if c =? 92 then [92; 92]
  else if (c <? 32) || is_low_surrogate c || is_high_surrogate c
  then unicode_escape c
  else [c].

(** The characters of a quoted string: a surrogate pair is copied, a lone
    surrogate is escaped. *)
Fixpoint quote_body (s : text) : text :=
  match s with
  | [] => []
  | c :: r =>
      if is_high_surrogate c then
        match r with
        | d :: r' =>
            if is_low_surrogate d then c :: d :: quote_body r'
            else unicode_escape c ++ quote_body r
        | [] => unicode_escape c
        end
      else quote_unit c ++ quote_body r
  end.

Definition QuoteJSONString (s : text) : text := 34 :: quote_body s ++ [34].

Fixpoint uint_text (u : Decimal.uint) : text :=
  match u with
  | Decimal.Nil => []
  | Decimal.D0 u => 48 :: uint_text u
  | Decimal.D1 u => 49 :: uint_text u
  | Decimal.D2 u => 50 :: uint_text u
  | Decimal.D3 u => 51 :: uint_text u
  | Decimal.D4 u => 52 :: uint_text u
  | Decimal.D5 u => 53 :: uint_text u
  | Decimal.D6 u => 54 :: uint_text u
  | Decimal.D7 u => 55 :: uint_text u
  | Decimal.D8 u => 56 :: uint_text u
  | Decimal.D9 u => 57 :: uint_text u
  end.

(** The decimal numeral of an integer, which is [Number::toString] of it
    below 10^21. *)
Definition number_text (z : Z) : text :=
  match z with
  | Z0 => [48]
  | Zpos p => uint_text (Pos.to_uint p)
  | Zneg p => 45 :: uint_text (Pos.to_uint p)
  end.

Definition boolean_text (b : bool) : text :=
  if b then [116; 114; 117; 101] else [102; 97; 108; 115; 101].

Definition newline : text := [10].
Definition indent1 : text := [32; 32].
Definition indent2 : text := [32; 32; 32; 32].
Definition colon_space : text := [58; 32].

Definition member_text (key value : text) : text :=
  indent2 ++ QuoteJSONString key ++ colon_space ++ value.

(** One element of the array: an object at nesting depth one. *)
Definition todo_text (t : Todo) : text :=
  [123] ++ newline
  ++ member_text k_id (number_text (id t)) ++ [44] ++ newline
  ++ member_text k_title (QuoteJSONString (title t)) ++ [44] ++ newline
  ++ member_text k_completed (boolean_text (completed t)) ++ [44] ++ newline
  ++ member_text k_createTime (QuoteJSONString (createTime t)) ++ newline
  ++ indent1 ++ [125].

Fixpoint elements_text (l : list Todo) : text :=
  match l with
  | [] => []
  | [t] => indent1 ++ todo_text t
  | t :: r => indent1 ++ todo_text t ++ [44] ++ newline ++ elements_text r
  end.

Definition JSON_stringify (todos : list Todo) : text :=
  match todos with
  | [] => [91; 93]
  | _ => [91] ++ newline ++ elements_text todos ++ newline ++ [93]
  end.

(* ================================================================= *)
(** ** [JSON.parse] *)

Inductive presult (A : Type) :=
| POk (a : A) (rest : text)
| PSyntax            (* not JSON *)
| PUnmodelled        (* a number that is not an integer literal *)
| PFuel.
Arguments POk {A} a rest.
Arguments PSyntax {A}.
Arguments PUnmodelled {A}.
Arguments PFuel {A}.

Definition pbind {A B} (r : presult A) (k : A -> text -> presult B) : presult B :=
  match r with
  | POk a rest => k a rest
  | PSyntax => PSyntax
  | PUnmodelled => PUnmodelled
  | PFuel => PFuel
  end.

Definition is_json_ws (c : N) : bool :=
  (c =? 32) || (c =? 9) || (c =? 10) || (c =? 13).

Fixpoint skip_ws (s : text) : text :=
  match s with
  | c :: r => if is_json_ws c then skip_ws r else s
  | [] => []
  end.

Definition hex_value (c : N) : option N := digit_value 16 c.

Definition hex4 (a b c d : N) : option N :=
  match hex_value a, hex_value b, hex_value c, hex_value d with
  | Some x, Some y, Some z, Some t => Some (((x * 16 + y) * 16 + z) * 16 + t)
  | _, _, _, _ => None
  end.

Definition unescape (e : N) : option N :=
  if e =? 34 then Some 34
  else if e =? 92 then Some 92
  else if e =? 47 then Some 47
  else if e =? 98 then Some 8
  else if e =? 102 then Some 12
  else if e =? 110 then Some 10
  else if e =? 114 then Some 13
  else if e =? 116 then Some 9
  else None.

(** The characters after an opening quote, up to the closing one. *)
Fixpoint parse_string_body (s : text) : presult text :=
  match s with
  | [] => PSyntax
  | c :: r =>
      if c =? 34 then POk [] r
      else if c =? 92 then
        match r with
        | [] => PSyntax
        | e :: r' =>
            if e =? 117 then
              match r' with
              | h1 :: h2 :: h3 :: h4 :: r'' =>
                  match hex4 h1 h2 h3 h4 with
                  | Some v => pbind (parse_string_body r'') (fun t rest => POk (v :: t) rest)
                  | None => PSyntax
                  end
              | _ => PSyntax
              end
            else
              match unescape e with
              | Some v => pbind (parse_string_body r') (fun t rest => POk (v :: t) rest)
              | None => PSyntax
              end
        end
      else if c <? 32 then PSyntax
      else pbind (parse_string_body r) (fun t rest => POk (c :: t) rest)
  end.

Definition digit_cons (c : N) (u : Decimal.uint) : Decimal.uint :=
  if c =? 48 then Decimal.D0 u
  else if c =? 49 then Decimal.D1 u
  else if c =? 50 then Decimal.D2 u
  else if c =? 51 then Decimal.D3 u
  else if c =? 52 then Decimal.D4 u
  else if c =? 53 then Decimal.D5 u
  else if c =? 54 then Decimal.D6 u
  else if c =? 55 then Decimal.D7 u
  else if c =? 56 then Decimal.D8 u
  else Decimal.D9 u.

Definition is_digit (c : N) : bool := (48 <=? c) && (c <=? 57).

Fixpoint read_digits (s : text) : Decimal.uint * text :=
  match s with
  | c :: r =>
      if is_digit c then
        let '(u, rest) := read_digits r in (digit_cons c u, rest)
      else (Decimal.Nil, s)
  | [] => (Decimal.Nil, [])
  end.

Definition starts_fraction_or_exponent (s : text) : bool :=
  match s with
  | c :: _ => (c =? 46) || (c =? 101) || (c =? 69)
  | [] => false
  end.

(** The digits of a number token, after its sign.  Only an integer literal
    has a value in the model. *)
Definition parse_digits (negative : bool) (s : text) : presult Z :=
  let '(u, rest) := read_digits s in
  match u with
  | Decimal.Nil => PSyntax
  | Decimal.D0 (Decimal.Nil) =>
      if negative || starts_fraction_or_exponent rest then PUnmodelled
      else POk 0%Z rest
  | Decimal.D0 _ => PSyntax
  | _ =>
      if starts_fraction_or_exponent rest then PUnmodelled
      else
        let n := Z.of_N (N.of_uint u) in
        POk (if negative then (- n)%Z else n) rest
  end.

Definition parse_number (s : text) : presult Z :=
  if starts_with 45 s then parse_digits true (tl s) else parse_digits false s.

Fixpoint strip_prefix (p s : text) : option text :=
  match p, s with
  | [], _ => Some s
  | a :: p', b :: s' => if a =? b then strip_prefix p' s' else None
  | _ :: _, [] => None
  end.

Definition parse_literal (s : text) : presult json :=
  match strip_prefix [116; 114; 117; 101] s with
  | Some r => POk (JBool true) r
  | None =>
  match strip_prefix [102; 97; 108; 115; 101] s with
  | Some r => POk (JBool false) r
  | None =>
  match strip_prefix [110; 117; 108; 108] s with
  | Some r => POk JNull r
  | None => pbind (parse_number s) (fun n rest => POk (JNum n) rest)
  end end end.

(** A value, at the first character of it.  One unit of [fuel] pays for one
    call; [JSON_parse] provides enough of it, see [JSON_parse_fuel]. *)
Fixpoint parse_value (fuel : nat) (s : text) : presult json :=
  match fuel with
  | O => PFuel
  | S fuel =>
      if starts_with 34 s then
        pbind (parse_string_body (tl s)) (fun t rest => POk (JStr t) rest)
      else if starts_with 91 s then
        let r := skip_ws (tl s) in
        if starts_with 93 r then POk (JArr []) (tl r)
        else parse_elements fuel r []
      else if starts_with 123 s then
        let r := skip_ws (tl s) in
        if starts_with 125 r then POk (JObj []) (tl r)
        else parse_members fuel r []
      else parse_literal s
  end

with parse_elements (fuel : nat) (s : text) (acc : list json) : presult json :=
  match fuel with
  | O => PFuel
  | S fuel =>
      pbind (parse_value fuel s) (fun v rest =>
        let r := skip_ws rest in
        if starts_with 44 r then parse_elements fuel (skip_ws (tl r)) (v :: acc)
        else if starts_with 93 r then POk (JArr (rev (v :: acc))) (tl r)
        else PSyntax)
  end

with parse_members (fuel : nat) (s : text) (acc : list (text * json)) : presult json :=
  match fuel with
  | O => PFuel
  | S fuel =>
      if starts_with 34 s then
        pbind (parse_string_body (tl s)) (fun k rest =>
          let r := skip_ws rest in
          if starts_with 58 r then
            pbind (parse_value fuel (skip_ws (tl r))) (fun v rest' =>
              let r' := skip_ws rest' in
              if starts_with 44 r' then
                parse_members fuel (skip_ws (tl r')) ((k, v) :: acc)
              else if starts_with 125 r' then
                POk (JObj (rev ((k, v) :: acc))) (tl r')
              else PSyntax)
          else PSyntax)
      else PSyntax
  end.

Inductive parsed :=
| Value (j : json)
| SyntaxError
| Unmodelled.

(** [JSON.parse(text)]: one value between optional white space. *)
Definition JSON_parse (s : text) : parsed :=
  match parse_value (S (2 * List.length s)) (skip_ws s) with
  | POk j rest =>
      match skip_ws rest with
      | [] => Value j
      | _ :: _ => SyntaxError
      end
  | PSyntax => SyntaxError
  | PUnmodelled => Unmodelled
  | PFuel => Unmodelled
  end.

(* ================================================================= *)
(** ** The file system and the monad of [async] functions *)

(** Conditions that make [fs] fail on a path that exists. *)
Inductive io_fault := EACCES | EISDIR | EROFS | ENOSPC | EIO.

(** The [code] of an error thrown by [fs]. *)
Inductive fs_code :=
| ENOENT
| Fault (f : io_fault).

(** A thrown value; [error.message] of the two wrappers embeds the message
    of the cause. *)
Inductive js_error :=
| FsError (code : fs_code)
| JsonSyntaxError
| TypeError
| ReadFailed (cause : js_error)     (* 读取 TODO 文件失败：<cause> *)
| WriteFailed (cause : js_error).   (* 写入 TODO 文件失败：<cause> *)

(** [TODO_FILE_PATH] as the program sees it: the decoded content of the
    file when it exists, and what makes reading or writing it fail. *)
Record World := {
  file : option text;
  read_fault : option io_fault;
  write_fault : option io_fault
}.

Inductive outcome (A : Type) :=
| Ret (a : A) (w : World)
| Throw (e : js_error) (w : World)
| Stuck.
Arguments Ret {A} a w.
Arguments Throw {A} e w.
Arguments Stuck {A}.

Definition M (A : Type) := World -> outcome A.

Definition ret {A} (a : A) : M A := fun w => Ret a w.
Definition throw {A} (e : js_error) : M A := fun w => Throw e w.
Definition stuck {A} : M A := fun _ => Stuck.

Definition bind {A B} (c : M A) (k : A -> M B) : M B :=
  fun w =>
    match c w with
    | Ret a w' => k a w'
    | Throw e w' => Throw e w'
    | Stuck => Stuck
    end.

(** [try { c } catch (error) { h error }] *)
Definition try_catch {A} (c : M A) (h : js_error -> M A) : M A :=
  fun w =>
    match c w with
    | Ret a w' => Ret a w'
    | Throw e w' => h e w'
    | Stuck => Stuck
    end.

Declare Scope async_scope.
Delimit Scope async_scope with async.
Notation "x <- c ;; k" := (bind c (fun x => k))
  (at level 61, c at next level, right associativity) : async_scope.
Notation "c ;;; k" := (bind c (fun _ => k))
  (at level 61, right associativity) : async_scope.
Local Open Scope async_scope.

(** Writing a string as UTF-8 and decoding it again keeps every code unit
    but a lone surrogate, which comes back as U+FFFD. *)
Fixpoint toWellFormed (s : text) : text :=
  match s with
  | [] => []
  | c :: r =>
      if is_high_surrogate c then
        match r with
        | d :: r' =>
            if is_low_surrogate d then c :: d :: toWellFormed r'
            else 65533 :: toWellFormed r
        | [] => [65533]
        end
      else if is_low_surrogate c then 65533 :: toWellFormed r
      else c :: toWellFormed r
  end.

(** [fs.readFile(TODO_FILE_PATH, 'utf8')] *)
Definition fs_readFile : M text :=
  fun w =>
    match file w with
    | None => Throw (FsError ENOENT) w
    | Some content =>
        match read_fault w with
        | Some f => Throw (FsError (Fault f)) w
        | None => Ret content w
        end
    end.

(** [fs.writeFile(TODO_FILE_PATH, content, 'utf8')].  A fault leaves the
    file as it was: that is what happens when the file cannot be opened
    (see [refused_at_open]).  The theorems about a failed write are stated
    for those faults, and the others for a file that can be written. *)
Definition fs_writeFile (content : text) : M unit :=
  fun w =>
    match write_fault w with
    | Some f => Throw (FsError (Fault f)) w
    | None =>
        Ret tt {| file := Some (toWellFormed content);
                  read_fault := read_fault w;
                  write_fault := write_fault w |}
    end.

Definition has_code_ENOENT (e : js_error) : bool :=
  match e with
  | FsError ENOENT => true
  | _ => false
  end.

(* ================================================================= *)
(** ** The store *)

Definition writeTodosToFile (todos : list Todo) : M unit :=
  try_catch
    (let jsonContent := JSON_stringify todos in
     fs_writeFile jsonContent)
    (fun error => throw (WriteFailed error)).

Definition json_parse (s : text) : M json :=
  match JSON_parse s with
  | Value j => ret j
  | SyntaxError => throw JsonSyntaxError
  | Unmodelled => stuck
  end.

Definition readTodosFromFile : M json :=
  try_catch
    (fileContent <- fs_readFile ;;
     json_parse fileContent)
    (fun error =>
       if has_code_ENOENT error then
         writeTodosToFile [] ;;;
         ret (JArr [])
       else throw (ReadFailed error)).

(** The handlers use what was read as an array of todos. *)
Definition as_todos (j : json) : M (list Todo) :=
  match todos_of_json j with
  | Some todos => ret todos
  | None => stuck
  end.

(** [Math.max(...ids)]; [None] is the [-Infinity] of no argument. *)
Definition Math_max (ids : list Z) : option Z :=
  match ids with
  | [] => None
  | x :: r => Some (fold_left Z.max r x)
  end.

(** The Number nearest to an integer.  Every integer up to 2^53 in
    magnitude is a Number; a greater one is a Number when it fits in 53
    significant bits, and is otherwise rounded to the nearest such integer,
    to the one with an even significand when it lies half way.  (Numbers
    end near 1.8e308, where the program's arithmetic gives [Infinity]; an
    id of that size is not told apart here.) *)
Definition Number_of_Z (z : Z) : Z :=
  let a := Z.abs z in
  let e := (Z.log2 a - 52)%Z in
  if (e <=? 0)%Z then z
  else
    let ulp := (2 ^ e)%Z in
    let q := (a / ulp)%Z in
    let r := (a mod ulp)%Z in
    let half := (ulp / 2)%Z in
    let q' :=
      if (r <? half)%Z then q
      else if (half <? r)%Z then (q + 1)%Z
      else if Z.even q then q else (q + 1)%Z in
    (Z.sgn z * (q' * ulp))%Z.

(** [a + b] on Numbers that are integers. *)
Definition Number_add (a b : Z) : Z := Number_of_Z (a + b).

Definition generateUniqueId : M Z :=
  j <- readTodosFromFile ;;
  todos <- as_todos j ;;
  if (List.length todos =? 0)%nat then ret 1%Z
  else
    match Math_max (map id todos) with
    | Some maxId => ret (Number_add maxId 1)
    | None => stuck
    end.

(* ================================================================= *)
(** ** Requests and responses *)

(** [req.body]: the object, or array, that [express.json()] parsed; the
    empty object when the request had none. *)
Definition Body := json.

(** The value of a property of a parsed object: of the duplicates of a key
    the last one counts. *)
Fixpoint member (key : text) (members : list (text * json)) : option json :=
  match members with
  | [] => None
  | (k, v) :: r =>
      match member key r with
      | Some v' => Some v'
      | None => if text_eqb k key then Some v else None
      end
  end.

(** [body[key]], [None] for [undefined]. *)
Definition property (key : text) (body : Body) : option json :=
  match body with
  | JObj members => member key members
  | _ => None
  end.

(** The two properties that [const { title, completed } = req.body] reads;
    the handlers look at nothing else of the body. *)
Definition b_title (body : Body) : option json := property k_title body.
Definition b_completed (body : Body) : option json := property k_completed body.

Inductive request :=
| GET_todos
| GET_todo (param_id : text)
| POST_todo (body : Body)
| PUT_todo (param_id : text) (body : Body)
| DELETE_todo (param_id : text).

Inductive message :=
| MsgTitleRequired                     (* 创建失败：title 是必填项，且必须是字符串 *)
| MsgCreated                           (* TODO 创建成功 *)
| MsgUpdated                           (* TODO 修改成功 *)
| MsgDeleted (todoId : option Z)       (* ID 为 ${todoId} 的 TODO 已删除 *)
| MsgNotFound (todoId : option Z)      (* 未找到 ID 为 ${todoId} 的 TODO *)
| MsgUpdateMissing (todoId : option Z) (* 修改失败：ID 为 ${todoId} 的 TODO 不存在 *)
| MsgDeleteMissing (todoId : option Z) (* 删除失败：ID 为 ${todoId} 的 TODO 不存在 *)
| MsgError (e : js_error).             (* error.message *)

Inductive payload :=
| Todos (l : list Todo)
| OneTodo (t : Todo)
| OnlyId (todoId : option Z).

(** [res.status(status).json({success, message, count, data})] *)
Record response := {
  status : nat;
  success : bool;
  msg : option message;
  count : option nat;
  data : option payload
}.

Definition failure (code : nat) (m : message) : response :=
  {| status := code; success := false; msg := Some m;
     count := None; data := None |}.

(** JavaScript truthiness; [None] is [undefined]. *)
Definition truthy (v : option json) : bool :=
  match v with
  | None => false
  | Some JNull => false
  | Some (JBool b) => b
  | Some (JNum n) => negb (n =? 0)%Z
  | Some JNonInteger => true
  | Some (JStr s) => match s with [] => false | _ => true end
  | Some (JArr _) => true
  | Some (JObj _) => true
  end.

Definition is_string (v : option json) : bool :=
  match v with
  | Some (JStr _) => true
  | _ => false
  end.

(** [title.trim()]; only a string has the method. *)
Definition call_trim (v : option json) : M text :=
  match v with
  | Some (JStr s) => ret (trim s)
  | _ => throw TypeError
  end.

(** [item.id === todoId] *)
Definition id_is (todoId : option Z) (item : Todo) : bool :=
  match todoId with
  | Some n => (id item =? n)%Z
  | None => false
  end.

Fixpoint find {A} (p : A -> bool) (l : list A) : option A :=
  match l with
  | [] => None
  | x :: r => if p x then Some x else find p r
  end.

(** [None] is the [-1] of [Array.prototype.findIndex]. *)
Fixpoint findIndex {A} (p : A -> bool) (l : list A) : option nat :=
  match l with
  | [] => None
  | x :: r =>
      if p x then Some O
      else match findIndex p r with Some i => Some (S i) | None => None end
  end.

(** [todos[i] = x] for an index inside the array. *)
Fixpoint assign {A} (l : list A) (i : nat) (x : A) : list A :=
  match l, i with
  | [], _ => []
  | _ :: r, O => x :: r
  | y :: r, S i => y :: assign r i x
  end.

(** [todos.splice(i, 1)] *)
Fixpoint splice1 {A} (l : list A) (i : nat) : list A :=
  match l, i with
  | [], _ => []
  | _ :: r, O => r
  | y :: r, S i => y :: splice1 r i
  end.

Definition with_title (t : Todo) (s : text) : Todo :=
  {| id := id t; title := s; completed := completed t; createTime := createTime t |}.

Definition with_completed (t : Todo) (c : bool) : Todo :=
  {| id := id t; title := title t; completed := c; createTime := createTime t |}.

(* ================================================================= *)
(** ** The handlers

    [now] is what [new Date().toISOString()] answers during the request. *)

Definition on_error (e : js_error) : M response :=
  ret (failure 500 (MsgError e)).

Definition get_todos : M response :=
  try_catch
    (j <- readTodosFromFile ;;
     todos <- as_todos j ;;
     ret {| status := 200; success := true; msg := None;
            count := Some (List.length todos); data := Some (Todos todos) |})
    on_error.

Definition get_todo (param_id : text) : M response :=
  try_catch
    (let todoId := parseInt param_id in
     j <- readTodosFromFile ;;
     todos <- as_todos j ;;
     match find (id_is todoId) todos with
     | None => ret (failure 404 (MsgNotFound todoId))
     | Some todo =>
         ret {| status := 200; success := true; msg := None;
                count := None; data := Some (OneTodo todo) |}
     end)
    on_error.

Definition post_todo (now : text) (body : Body) : M response :=
  try_catch
    (let title := b_title body in
     let completed :=
       match b_completed body with Some c => Some c | None => Some (JBool false) end in
     if negb (truthy title) || negb (is_string title) then
       ret (failure 400 MsgTitleRequired)
     else
       j <- readTodosFromFile ;;
       todos <- as_todos j ;;
       newId <- generateUniqueId ;;
       trimmed <- call_trim title ;;
       let newTodo :=
         {| id := newId; title := trimmed;
            completed := truthy completed; createTime := now |} in
       writeTodosToFile (todos ++ [newTodo]) ;;;
       ret {| status := 201; success := true; msg := Some MsgCreated;
              count := None; data := Some (OneTodo newTodo) |})
    on_error.

Definition put_todo (param_id : text) (body : Body) : M response :=
  try_catch
    (let todoId := parseInt param_id in
     let title := b_title body in
     let completed := b_completed body in
     j <- readTodosFromFile ;;
     todos <- as_todos j ;;
     match findIndex (id_is todoId) todos with
     | None => ret (failure 404 (MsgUpdateMissing todoId))
     | Some todoIndex =>
         match nth_error todos todoIndex with
         | None => stuck
         | Some old =>
             titled <-
               (if truthy title then
                  trimmed <- call_trim title ;; ret (with_title old trimmed)
                else ret old) ;;
             let updatedTodo :=
               match completed with
               | Some c => with_completed titled (truthy (Some c))
               | None => titled
               end in
             writeTodosToFile (assign todos todoIndex updatedTodo) ;;;
             ret {| status := 200; success := true; msg := Some MsgUpdated;
                    count := None; data := Some (OneTodo updatedTodo) |}
         end
     end)
    on_error.

Definition delete_todo (param_id : text) : M response :=
  try_catch
    (let todoId := parseInt param_id in
     j <- readTodosFromFile ;;
     todos <- as_todos j ;;
     match findIndex (id_is todoId) todos with
     | None => ret (failure 404 (MsgDeleteMissing todoId))
     | Some todoIndex =>
         writeTodosToFile (splice1 todos todoIndex) ;;;
         ret {| status := 200; success := true; msg := Some (MsgDeleted todoId);
                count := None; data := Some (OnlyId todoId) |}
     end)
    on_error.

Definition handle (now : text) (req : request) : M response :=
  match req with
  | GET_todos => get_todos
  | GET_todo p => get_todo p
  | POST_todo body => post_todo now body
  | PUT_todo p body => put_todo p body
  | DELETE_todo p => delete_todo p
  end.

(** The callback of [app.listen]: the file is made to exist before the
    first request. *)
Definition startup : M unit :=
  readTodosFromFile ;;; ret tt.

(** Requests served one after the other, each with its clock reading. *)
Fixpoint serve (reqs : list (text * request)) (w : World) : option (list response * World) :=
  match reqs with
  | [] => Some ([], w)
  | (now, req) :: rest =>
      match handle now req w with
      | Ret r w' =>
          match serve rest w' with
          | Some (rs, w'') => Some (r :: rs, w'')
          | None => None
          end
      | _ => None
      end
  end.

(* ================================================================= *)
(** ** Vocabulary of the properties *)

(** The collection a world stores: what a read of the file yields, when the
    file holds an array of todos and can be read. *)
Definition collection (w : World) : option (list Todo) :=
  match file w, read_fault w with
  | Some content, None =>
      match JSON_parse content with
      | Value j => todos_of_json j
      | _ => None
      end
  | _, _ => None
  end.

Definition stored (w : World) (todos : list Todo) : Prop :=
  collection w = Some todos.

(** The world after [todos] was saved. *)
Definition saved (todos : list Todo) (w : World) : World :=
  {| file := Some (JSON_stringify todos);
     read_fault := read_fault w;
     write_fault := write_fault w |}.

(** The invariant of a collection. *)
Definition unique_positive_ids (todos : list Todo) : Prop :=
  NoDup (map id todos) /\ Forall (fun t => (0 < id t)%Z) todos.

(** A numeric path parameter: an integer numeral, digits after an optional
    sign. *)
Definition is_numeric (s : text) : bool :=
  let digits := if starts_with 45 s || starts_with 43 s then tl s else s in
  match digits with
  | [] => false
  | _ => forallb is_digit digits
  end.

(** The requests whose handler reads the store ([POST] does after it has
    validated the title). *)
Definition reads_store (req : request) : bool :=
  match req with
  | POST_todo body => truthy (b_title body) && is_string (b_title body)
  | _ => true
  end.

(** The title of a [PUT] body is of the declared type when it is absent, a
    string, or a falsy value, which the merge skips. *)
Definition title_mergeable (body : Body) : bool :=
  is_string (b_title body) || negb (truthy (b_title body)).

(** The id the store assigns, as a function of the collection. *)
Definition next_id (todos : list Todo) : Z :=
  match map id todos with
  | [] => 1
  | x :: r => Number_add (fold_left Z.max r x) 1
  end.

Definition created_response (t : Todo) : response :=
  {| status := 201; success := true; msg := Some MsgCreated;
     count := None; data := Some (OneTodo t) |}.

(** The todo that [POST] builds. *)
Definition new_todo (now : text) (todos : list Todo) (body : Body) : Todo :=
  {| id := next_id todos;
     title := match b_title body with Some (JStr s) => trim s | _ => [] end;
     completed :=
       match b_completed body with
       | Some c => truthy (Some c)
       | None => false
       end;
     createTime := now |}.

(** The merge as the specification words it: a truthy title replaces the
    title after trimming, a defined [completed] replaces the flag, the
    rest stays. *)
Definition shallow_merge (old : Todo) (body : Body) : Todo :=
  {| id := id old;
     title :=
       match b_title body with
       | Some (JStr (c :: s)) => trim (c :: s)
       | _ => title old
       end;
     completed :=
       match b_completed body with
       | Some c => truthy (Some c)
       | None => completed old
       end;
     createTime := createTime old |}.

Definition updated_response (t : Todo) : response :=
  {| status := 200; success := true; msg := Some MsgUpdated;
     count := None; data := Some (OneTodo t) |}.

Definition deleted_response (todoId : option Z) : response :=
  {| status := 200; success := true; msg := Some (MsgDeleted todoId);
     count := None; data := Some (OnlyId todoId) |}.

(** How a request can change the collection. *)
Inductive effect (todos : list Todo) : list Todo -> Prop :=
| SameIds todos' :
    map id todos' = map id todos -> effect todos todos'
| Pushed t :
    id t = next_id todos -> effect todos (todos ++ [t])
| Removed l1 x l2 :
    todos = l1 ++ x :: l2 -> effect todos (l1 ++ l2).

(** The claim that every non-numeric parameter misses, for the three
    routes that take one. *)
Definition non_numeric_id_always_misses : Prop :=
  forall p w todos body,
    is_numeric p = false -> stored w todos ->
    (exists resp, get_todo p w = Ret resp w /\ status resp = 404%nat)
    /\ (exists resp, put_todo p body w = Ret resp w /\ status resp = 404%nat)
    /\ (exists resp, delete_todo p w = Ret resp w /\ status resp = 404%nat).

(** Sample data. *)
Definition todo12 : Todo :=
  {| id := 12; title := lit "walk dog"; completed := false;
     createTime := lit "2024-05-01T10:00:00.000Z" |}.

Definition world_of (todos : list Todo) : World :=
  {| file := Some (JSON_stringify todos); read_fault := None; write_fault := None |}.

Definition no_file : World :=
  {| file := None; read_fault := None; write_fault := None |}.

Definition broken_file : World :=
  {| file := Some (lit "[{oops"); read_fault := None; write_fault := None |}.

Definition sample_now : text := lit "2024-05-02T08:30:00.000Z".

Definition body_with_title (s : string) : Body :=
  JObj [ (k_title, JStr (lit s)) ].

Definition body_not_completed : Body :=
  JObj [ (k_completed, JBool false) ].

(** A body that also names an id and a creation time. *)
Definition body_with_id : Body :=
  JObj [ (k_id, JNum 99); (k_title, JStr (lit "walk the dog"));
         (k_createTime, JStr (lit "1999-12-31T23:59:59.999Z")) ].

(** Auxiliary notions for the proofs about the document that is written. *)
Definition starts_digit (s : text) : bool :=
  match s with
  | c :: _ => is_digit c
  | [] => false
  end.

Definition plain (c : N) : bool :=
  negb (is_high_surrogate c) && negb (is_low_surrogate c).

(** [s] survives [toWellFormed] whatever follows it. *)
Definition WF (s : text) : Prop :=
  forall b, toWellFormed (s ++ b) = s ++ toWellFormed b.

(** Safe integers, on which Number arithmetic is exact. *)
Definition MAX_SAFE_INTEGER : Z := 9007199254740991.

(** [Number.isSafeInteger]: the integers that a Number holds exactly and
    that [parseInt] and an integer literal yield unrounded. *)
Definition is_safe_integer (z : Z) : bool :=
  (- MAX_SAFE_INTEGER <=? z)%Z && (z <=? MAX_SAFE_INTEGER)%Z.

Definition safe_ids (todos : list Todo) : Prop :=
  Forall (fun t => is_safe_integer (id t) = true) todos.

(** The faults with which [open] refuses the file, before it is truncated.
    A fault that strikes later (no space left, a device error) leaves a
    file that was cut short, which [fs_writeFile] does not describe. *)
Definition refused_at_open (f : io_fault) : bool :=
  match f with
  | EACCES | EISDIR | EROFS => true
  | ENOSPC | EIO => false
  end.

(** C1 as it is stated, for every stored collection: the id of the created
    todo is greater than every stored id. *)
Definition new_id_exceeds_every_id : Prop :=
  forall now w todos body t,
    stored w todos -> write_fault w = None ->
    property k_title body = Some (JStr t) -> t <> [] ->
    exists newTodo w',
      post_todo now body w = Ret (created_response newTodo) w'
      /\ forall u, In u todos -> (id u < id newTodo)%Z.


(** C8 as it is stated, for every collection with unique and positive
    ids. *)
Definition unique_positive_ids_always_kept : Prop :=
  forall now req w todos,
    stored w todos -> write_fault w = None -> unique_positive_ids todos ->
    exists resp w' todos',
      handle now req w = Ret resp w'
      /\ stored w' todos'
      /\ unique_positive_ids todos'.


Definition todo_2_53 : Todo :=
  {| id := 9007199254740992; title := lit "count sheep"; completed := false;
     createTime := lit "2024-05-01T10:00:00.000Z" |}.

Definition body_numeric_title : Body :=
  JObj [ (k_title, JNum 123); (k_completed, JBool true) ].

(* ================================================================= *)
(** ** Vocabulary of the further properties *)

(** The requests that only read. *)
Definition is_get (req : request) : bool :=
  match req with
  | GET_todos | GET_todo _ => true
  | _ => false
  end.

(** What one request does to a stored collection [todos] in the world
    [w]: nothing (every GET and every failed request), or one creation,
    one update in place or one removal, each saved to the file. *)
Inductive step (w : World) (todos : list Todo)
  : request -> response -> World -> list Todo -> Prop :=
| StepSame req r :
    is_get req = true \/ success r = false ->
    step w todos req r w todos
| StepCreate body t s :
    id t = next_id todos -> title t = trim s ->
    step w todos (POST_todo body) (created_response t)
         (saved (todos ++ [t]) w) (todos ++ [t])
| StepUpdate p body l1 x y l2 :
    todos = l1 ++ x :: l2 -> id y = id x -> createTime y = createTime x ->
    (title y = title x \/ exists s, title y = trim s) ->
    step w todos (PUT_todo p body) (updated_response y)
         (saved (l1 ++ y :: l2) w) (l1 ++ y :: l2)
| StepDelete p l1 x l2 :
    todos = l1 ++ x :: l2 ->
    step w todos (DELETE_todo p) (deleted_response (parseInt p))
         (saved (l1 ++ l2) w) (l1 ++ l2).

(** The states of the data file that are covered: no file, a file that
    cannot be read, text that is not JSON, and an array of todos in the
    form the program writes.  Any other JSON document (an object, an array
    of something else, a number with a fraction) is left out. *)
Definition covered (w : World) : bool :=
  match file w with
  | None => true
  | Some content =>
      match read_fault w with
      | Some _ => true
      | None =>
          match JSON_parse content with
          | Value j =>
              match todos_of_json j with
              | Some _ => true
              | None => false
              end
          | SyntaxError => true
          | Unmodelled => false
          end
      end
  end.

(** The two shapes of a response envelope. *)
Definition has_data (r : response) : bool :=
  match data r with Some _ => true | None => false end.

Definition has_message (r : response) : bool :=
  match msg r with Some _ => true | None => false end.

Definition well_formed_response (r : response) : bool :=
  if ((status r =? 200) || (status r =? 201))%nat
  then success r && has_data r
  else ((status r =? 400) || (status r =? 404) || (status r =? 500))%nat
       && negb (success r) && has_message r && negb (has_data r).

Definition starts_space (s : text) : bool :=
  match s with
  | c :: _ => is_space c
  | [] => false
  end.

Definition ends_space (s : text) : bool := starts_space (rev s).

(** A title that neither begins nor ends with white space. *)
Definition clean_title (t : Todo) : Prop :=
  starts_space (title t) = false /\ ends_space (title t) = false.

(** The test of POST: [title] is truthy and a string. *)
Definition valid_title (body : Body) : bool :=
  truthy (b_title body) && is_string (b_title body).

(** A sequence of creations at the same clock reading. *)
Definition post_all (now : text) (bodies : list Body) : list (text * request) :=
  map (fun body => (now, POST_todo body)) bodies.

(** The world in which the server is first started: no file yet, a disk
    that works. *)
Definition fresh (w : World) : Prop :=
  file w = None /\ read_fault w = None /\ write_fault w = None.

(** Ids between 1 and [k], none beyond 2^53, and unique as long as [k] is
    a safe integer. *)
Definition ids_upto (k : nat) (todos : list Todo) : Prop :=
  Forall (fun t => (1 <= id t <= Z.of_nat k)%Z /\ (id t <= MAX_SAFE_INTEGER + 1)%Z) todos
  /\ ((Z.of_nat k <= MAX_SAFE_INTEGER)%Z -> NoDup (map id todos)).

(** Worlds with a faulty disk, and a sequence of requests. *)
Definition unreadable : World :=
  {| file := Some (JSON_stringify [todo12]); read_fault := Some EACCES;
     write_fault := None |}.

Definition read_only : World :=
  {| file := Some (JSON_stringify [todo12]); read_fault := None;
     write_fault := Some EROFS |}.

Definition no_file_read_only : World :=
  {| file := None; read_fault := None; write_fault := Some EROFS |}.

Definition sample_requests : list (text * request) :=
  [ (sample_now, POST_todo (body_with_title " buy milk "));
    (sample_now, PUT_todo (lit "1") body_with_id);
    (sample_now, POST_todo (body_with_title "walk dog"));
    (sample_now, DELETE_todo (lit "1")) ].

(* ################################################################# *)
(** * Properties *)

Ltac unbool :=
  repeat rewrite ?orb_true_iff, ?andb_true_iff, ?orb_false_iff, ?andb_false_iff,
    ?N.leb_le, ?N.ltb_lt, ?N.eqb_eq, ?N.leb_gt, ?N.ltb_ge, ?N.eqb_neq in *.
Ltac blia := unbool; lia.

(* ================================================================= *)
(** ** Quoted strings are read back *)

Lemma hex_value_hex_digit d : d < 16 -> hex_value (hex_digit d) = Some d.
Proof.
  intros H. rewrite <- (N2Nat.id d).
  assert (Hn : (N.to_nat d < 16)%nat) by lia.
  destruct (N.to_nat d) as [|n]; [reflexivity|].
  do 15 (destruct n as [|n]; [reflexivity|]). lia.
Qed.

Lemma hex4_unicode c : c < 65536 ->
  hex4 (hex_digit (c / 4096 mod 16)) (hex_digit (c / 256 mod 16))
       (hex_digit (c / 16 mod 16)) (hex_digit (c mod 16)) = Some c.
Proof.
  intros H. unfold hex4.
  rewrite !hex_value_hex_digit by (apply N.mod_lt; discriminate).
  f_equal. zify. Z.to_euclidean_division_equations. lia.
Qed.

Lemma parse_unicode_escape c r : c < 65536 ->
  parse_string_body (unicode_escape c ++ r)
  = pbind (parse_string_body r) (fun t rest => POk (c :: t) rest).
Proof.
  intros H. unfold unicode_escape. cbn [app parse_string_body].
  change (92 =? 34) with false. change (92 =? 92) with true. change (117 =? 117) with true.
  cbv iota. rewrite hex4_unicode by exact H. reflexivity.
Qed.

Lemma surrogate_lt c : is_low_surrogate c || is_high_surrogate c = true -> c < 65536.
Proof. unfold is_low_surrogate, is_high_surrogate. blia. Qed.

Lemma parse_quote_unit c r :
  parse_string_body (quote_unit c ++ r)
  = pbind (parse_string_body r) (fun t rest => POk (c :: t) rest).
Proof.
  unfold quote_unit.
  repeat match goal with
  | |- context [ if ?c =? ?k then _ else _ ] =>
      destruct (N.eqb_spec c k) as [->|?]; [reflexivity|]
  end.
  destruct ((c <? 32) || is_low_surrogate c || is_high_surrogate c) eqn:E.
  - apply parse_unicode_escape.
    unfold is_low_surrogate, is_high_surrogate in E. blia.
  - cbn [app parse_string_body].
    destruct (N.eqb_spec c 34); [contradiction|].
    destruct (N.eqb_spec c 92); [contradiction|].
    unfold is_low_surrogate, is_high_surrogate in E.
    assert ((c <? 32) = false) as -> by blia. reflexivity.
Qed.

Lemma parse_quote_body_aux n : forall s rest, (List.length s <= n)%nat ->
  parse_string_body (quote_body s ++ 34 :: rest) = POk s rest.
Proof.
  induction n as [|n IH]; intros s rest Hn.
  - destruct s; [reflexivity | simpl in Hn; lia].
  - destruct s as [|c r]; [reflexivity|].
    simpl in Hn. cbn [quote_body].
    destruct (is_high_surrogate c) eqn:Hh.
    + destruct r as [|d r'].
      * rewrite parse_unicode_escape by (apply surrogate_lt; rewrite Hh; apply orb_true_r).
        reflexivity.
      * destruct (is_low_surrogate d) eqn:Hl.
        -- cbn [app parse_string_body].
           unfold is_high_surrogate in Hh. unfold is_low_surrogate in Hl.
           assert ((c =? 34) = false) as -> by blia.
           assert ((c =? 92) = false) as -> by blia.
           assert ((c <? 32) = false) as -> by blia.
           assert ((d =? 34) = false) as -> by blia.
           assert ((d =? 92) = false) as -> by blia.
           assert ((d <? 32) = false) as -> by blia.
           rewrite IH by (simpl in Hn; lia). reflexivity.
        -- rewrite <- app_assoc.
           rewrite parse_unicode_escape by (apply surrogate_lt; rewrite Hh; apply orb_true_r).
           rewrite IH by lia. reflexivity.
    + rewrite <- app_assoc, parse_quote_unit, IH by lia. reflexivity.
Qed.

Lemma parse_QuoteJSONString s rest :
  parse_string_body (quote_body s ++ 34 :: rest) = POk s rest.
Proof. apply (parse_quote_body_aux (List.length s)). lia. Qed.

(* ================================================================= *)
(** ** Numbers are read back *)

Lemma read_digits_uint_text u rest : starts_digit rest = false ->
  read_digits (uint_text u ++ rest) = (u, rest).
Proof.
  intros Hr. induction u; cbn [uint_text app read_digits];
    try (change (is_digit _) with true; cbv iota; rewrite IHu; reflexivity).
  destruct rest as [|c r]; [reflexivity|].
  simpl in Hr. cbn [read_digits]. rewrite Hr. reflexivity.
Qed.

Lemma to_uint_no_leading_zero p u : Pos.to_uint p <> Decimal.D0 u.
Proof.
  intros E.
  assert (Hn : Decimal.unorm (Pos.to_uint p) = Pos.to_uint p).
  { rewrite <- (DecimalPos.Unsigned.to_of (Pos.to_uint p)).
    rewrite DecimalPos.Unsigned.of_to. reflexivity. }
  rewrite E in Hn. unfold Decimal.unorm in Hn.
  destruct (Decimal.nzhead (Decimal.D0 u)) eqn:Hz;
    try (apply (DecimalFacts.nzhead_nonzero (Decimal.D0 u) u); congruence).
  apply (DecimalPos.Unsigned.to_uint_nonzero p). rewrite E. symmetry. exact Hn.
Qed.

Lemma uint_text_head p :
  exists c r, uint_text (Pos.to_uint p) = c :: r /\ is_digit c = true /\ c <> 45.
Proof.
  pose proof (DecimalPos.Unsigned.to_uint_nonnil p) as Hn.
  destruct (Pos.to_uint p); try contradiction; cbn [uint_text];
    eexists; eexists; (split; [reflexivity|]); split; (reflexivity || discriminate).
Qed.

Lemma parse_digits_uint negative p rest :
  starts_digit rest = false -> starts_fraction_or_exponent rest = false ->
  parse_digits negative (uint_text (Pos.to_uint p) ++ rest)
  = POk (if negative then Zneg p else Zpos p) rest.
Proof.
  intros Hd Hf. unfold parse_digits. rewrite read_digits_uint_text by exact Hd.
  pose proof (DecimalPos.Unsigned.to_uint_nonnil p) as Hn.
  pose proof (to_uint_no_leading_zero p) as Hz.
  assert (Hv : N.of_uint (Pos.to_uint p) = Npos p)
    by apply (DecimalN.Unsigned.of_to (Npos p)).
  destruct (Pos.to_uint p) eqn:E; try contradiction;
    try (exfalso; eapply Hz; reflexivity);
    rewrite Hf, Hv; destruct negative; reflexivity.
Qed.

Lemma parse_number_text z rest :
  starts_digit rest = false -> starts_fraction_or_exponent rest = false ->
  parse_number (number_text z ++ rest) = POk z rest.
Proof.
  intros Hd Hf. unfold parse_number. destruct z as [|p|p]; cbn [number_text].
  - cbn [app starts_with]. change (48 =? 45) with false. cbv iota.
    unfold parse_digits. cbn [read_digits]. change (is_digit 48) with true. cbv iota.
    replace (read_digits rest) with (@Decimal.Nil, rest).
    + cbn. rewrite Hf. reflexivity.
    + destruct rest as [|c r]; [reflexivity|]. simpl in Hd. cbn [read_digits].
      rewrite Hd. reflexivity.
  - destruct (uint_text_head p) as (c & r & E & Hc & H45).
    assert (Hs : starts_with 45 (uint_text (Pos.to_uint p) ++ rest) = false).
    { rewrite E. cbn [app starts_with]. blia. }
    rewrite Hs. apply parse_digits_uint; assumption.
  - cbn [app starts_with tl]. change (45 =? 45) with true. cbv iota.
    apply parse_digits_uint; assumption.
Qed.

Lemma number_text_head z :
  exists c r, number_text z = c :: r /\ (is_digit c = true \/ c = 45).
Proof.
  destruct z as [|p|p]; cbn [number_text].
  - eexists; eexists; split; [reflexivity | left; reflexivity].
  - destruct (uint_text_head p) as (c & r & E & Hc & _).
    exists c, r. split; [exact E | left; exact Hc].
  - eexists; eexists; split; [reflexivity | right; reflexivity].
Qed.

Lemma skip_ws_number z rest : skip_ws (number_text z ++ rest) = number_text z ++ rest.
Proof.
  destruct (number_text_head z) as (c & r & -> & Hc). cbn [app skip_ws].
  assert (is_json_ws c = false) as ->; [|reflexivity].
  unfold is_json_ws. unfold is_digit in Hc. destruct Hc as [Hc | ->]; [blia | reflexivity].
Qed.

Lemma parse_value_number f z rest :
  starts_digit rest = false -> starts_fraction_or_exponent rest = false ->
  parse_value (S f) (number_text z ++ rest) = POk (JNum z) rest.
Proof.
  intros Hd Hf. cbn [parse_value]. unfold parse_literal.
  rewrite parse_number_text by assumption.
  destruct (number_text_head z) as (c & r & -> & Hc). cbn [app starts_with strip_prefix].
  unfold is_digit in Hc.
  assert ((c =? 34) = false) as -> by (destruct Hc as [Hc | ->]; [blia | reflexivity]).
  assert ((c =? 91) = false) as -> by (destruct Hc as [Hc | ->]; [blia | reflexivity]).
  assert ((c =? 123) = false) as -> by (destruct Hc as [Hc | ->]; [blia | reflexivity]).
  assert ((116 =? c) = false) as -> by (destruct Hc as [Hc | ->]; [blia | reflexivity]).
  assert ((102 =? c) = false) as -> by (destruct Hc as [Hc | ->]; [blia | reflexivity]).
  assert ((110 =? c) = false) as -> by (destruct Hc as [Hc | ->]; [blia | reflexivity]).
  reflexivity.
Qed.

Lemma parse_value_string f s rest :
  parse_value (S f) (QuoteJSONString s ++ rest) = POk (JStr s) rest.
Proof.
  unfold QuoteJSONString. cbn [parse_value app starts_with tl].
  change (34 =? 34) with true. cbv iota.
  rewrite <- app_assoc. cbn [app]. rewrite parse_QuoteJSONString. reflexivity.
Qed.

Lemma parse_value_boolean f b rest :
  parse_value (S f) (boolean_text b ++ rest) = POk (JBool b) rest.
Proof. destruct b; reflexivity. Qed.

(* ================================================================= *)
(** ** The written document is read back *)

(** One member followed by a comma: the parser moves on to the next key. *)
Lemma parse_member_next f k vt v r acc :
  parse_value f (skip_ws (32 :: vt ++ 44 :: r)) = POk v (44 :: r) ->
  parse_members (S f) (QuoteJSONString k ++ colon_space ++ vt ++ 44 :: r) acc
  = parse_members f (skip_ws r) ((k, v) :: acc).
Proof.
  intros Hv. unfold QuoteJSONString, colon_space.
  cbn [parse_members app starts_with tl]. change (34 =? 34) with true. cbv iota.
  rewrite <- app_assoc. cbn [app]. rewrite parse_QuoteJSONString.
  cbn [pbind]. change (skip_ws (58 :: 32 :: vt ++ 44 :: r)) with (58 :: 32 :: vt ++ 44 :: r).
  cbn [starts_with tl]. change (58 =? 58) with true. cbv iota.
  rewrite Hv. reflexivity.
Qed.

(** The last member, followed by the closing brace on the next line. *)
Lemma parse_member_last f k vt v r acc :
  parse_value f (skip_ws (32 :: vt ++ 10 :: 32 :: 32 :: 125 :: r))
    = POk v (10 :: 32 :: 32 :: 125 :: r) ->
  parse_members (S f)
    (QuoteJSONString k ++ colon_space ++ vt ++ 10 :: 32 :: 32 :: 125 :: r) acc
  = POk (JObj (rev ((k, v) :: acc))) r.
Proof.
  intros Hv. unfold QuoteJSONString, colon_space.
  cbn [parse_members app starts_with tl]. change (34 =? 34) with true. cbv iota.
  rewrite <- app_assoc. cbn [app]. rewrite parse_QuoteJSONString.
  cbn [pbind].
  change (skip_ws (58 :: 32 :: vt ++ 10 :: 32 :: 32 :: 125 :: r))
    with (58 :: 32 :: vt ++ 10 :: 32 :: 32 :: 125 :: r).
  cbn [starts_with tl]. change (58 =? 58) with true. cbv iota.
  rewrite Hv. reflexivity.
Qed.

Lemma todo_text_eq t r :
  todo_text t ++ r
  = 123 :: 10 :: 32 :: 32 :: 32 :: 32 ::
    QuoteJSONString k_id ++ colon_space ++ number_text (id t) ++ 44 :: 10 :: 32 :: 32 :: 32 :: 32 ::
    QuoteJSONString k_title ++ colon_space ++ QuoteJSONString (title t) ++ 44 :: 10 :: 32 :: 32 :: 32 :: 32 ::
    QuoteJSONString k_completed ++ colon_space ++ boolean_text (completed t) ++ 44 :: 10 :: 32 :: 32 :: 32 :: 32 ::
    QuoteJSONString k_createTime ++ colon_space ++ QuoteJSONString (createTime t)
      ++ 10 :: 32 :: 32 :: 125 :: r.
Proof.
  unfold todo_text, member_text, indent1, indent2, newline.
  repeat (rewrite <- app_assoc; cbn [app]). reflexivity.
Qed.

Lemma parse_value_todo f t r :
  parse_value (6 + f) (todo_text t ++ r) = POk (json_of_todo t) r.
Proof.
  rewrite todo_text_eq.
  change (6 + f)%nat with (S (S (S (S (S (S f)))))).
  cbn [parse_value starts_with tl].
  change (123 =? 34) with false. change (123 =? 91) with false.
  change (123 =? 123) with true. cbv iota zeta.
  change (skip_ws (10 :: 32 :: 32 :: 32 :: 32 :: QuoteJSONString k_id ++ ?x))
    with (QuoteJSONString k_id ++ x).
  change (starts_with 125 (QuoteJSONString k_id ++ ?x)) with false. cbv iota.
  rewrite parse_member_next with (v := JNum (id t)).
  2:{ cbn [skip_ws]. change (is_json_ws 32) with true. cbv iota.
      rewrite skip_ws_number. apply parse_value_number; reflexivity. }
  change (skip_ws (10 :: 32 :: 32 :: 32 :: 32 :: QuoteJSONString k_title ++ ?x))
    with (QuoteJSONString k_title ++ x).
  rewrite parse_member_next with (v := JStr (title t)).
  2:{ change (skip_ws (32 :: QuoteJSONString ?s ++ ?x)) with (QuoteJSONString s ++ x).
      apply parse_value_string. }
  change (skip_ws (10 :: 32 :: 32 :: 32 :: 32 :: QuoteJSONString k_completed ++ ?x))
    with (QuoteJSONString k_completed ++ x).
  rewrite parse_member_next with (v := JBool (completed t)).
  2:{ destruct (completed t); reflexivity. }
  change (skip_ws (10 :: 32 :: 32 :: 32 :: 32 :: QuoteJSONString k_createTime ++ ?x))
    with (QuoteJSONString k_createTime ++ x).
  rewrite parse_member_last with (v := JStr (createTime t)).
  2:{ change (skip_ws (32 :: QuoteJSONString ?s ++ ?x)) with (QuoteJSONString s ++ x).
      apply parse_value_string. }
  reflexivity.
Qed.

Lemma parse_elements_todos l : forall f acc r,
  l <> [] ->
  parse_elements (List.length l + 6 + f) (skip_ws (elements_text l ++ 10 :: 93 :: r)) acc
  = POk (JArr (rev acc ++ map json_of_todo l)) r.
Proof.
  induction l as [|t l IH]; intros f acc r Hne; [contradiction|].
  destruct l as [|t' l].
  - cbn [elements_text List.length]. unfold indent1. rewrite <- app_assoc. cbn [app].
    rewrite todo_text_eq.
    change (skip_ws (32 :: 32 :: 123 :: ?x)) with (123 :: x).
    rewrite <- todo_text_eq.
    change (1 + 6 + f)%nat with (S (6 + f)). cbn [parse_elements].
    rewrite parse_value_todo. cbn [pbind].
    cbn. reflexivity.
  - change (elements_text (t :: t' :: l))
      with (indent1 ++ todo_text t ++ [44] ++ newline ++ elements_text (t' :: l)).
    unfold indent1, newline. repeat (rewrite <- app_assoc; cbn [app]).
    rewrite todo_text_eq.
    change (skip_ws (32 :: 32 :: 123 :: ?x)) with (123 :: x).
    rewrite <- todo_text_eq.
    change (List.length (t :: t' :: l) + 6 + f)%nat
      with (S (List.length (t' :: l) + 6 + f)).
    cbn [parse_elements].
    replace (List.length (t' :: l) + 6 + f)%nat
      with (6 + (List.length (t' :: l) + f))%nat at 1 by lia.
    rewrite parse_value_todo. cbn [pbind].
    change (skip_ws (44 :: ?x)) with (44 :: x). cbv zeta.
    cbn [starts_with tl]. change (44 =? 44) with true. cbv iota.
    change (skip_ws (10 :: ?x)) with (skip_ws x).
    rewrite IH by discriminate.
    cbn [rev map]. rewrite <- app_assoc. reflexivity.
Qed.

Lemma elements_text_length l : (7 * List.length l <= List.length (elements_text l))%nat.
Proof.
  induction l as [|t l IH]; [simpl; lia|].
  assert (Ht : (7 <= List.length (indent1 ++ todo_text t))%nat).
  { rewrite length_app. rewrite <- (app_nil_r (todo_text t)), todo_text_eq.
    unfold QuoteJSONString. cbn [List.length app].
    repeat apply le_n_S. apply Nat.le_0_l. }
  destruct l as [|t' l].
  - cbn [elements_text]. change (List.length [t]) with 1%nat. lia.
  - change (elements_text (t :: t' :: l))
      with (indent1 ++ todo_text t ++ [44] ++ newline ++ elements_text (t' :: l)).
    rewrite !length_app. rewrite length_app in Ht.
    change (List.length (t :: t' :: l)) with (S (List.length (t' :: l))). lia.
Qed.

Theorem JSON_parse_stringify l :
  JSON_parse (JSON_stringify l) = Value (JArr (map json_of_todo l)).
Proof.
  destruct l as [|t l]; [reflexivity|].
  unfold JSON_parse.
  set (todos := t :: l).
  assert (Hs : JSON_stringify todos = 91 :: 10 :: elements_text todos ++ 10 :: 93 :: []).
  { reflexivity. }
  rewrite Hs. clear Hs.
  change (skip_ws (91 :: ?x)) with (91 :: x).
  cbn [parse_value starts_with tl]. change (91 =? 34) with false.
  change (91 =? 91) with true. cbv iota zeta.
  change (skip_ws (10 :: ?x)) with (skip_ws x).
  pose proof (elements_text_length todos) as Hlen.
  assert (Hl : (1 <= List.length todos)%nat) by (subst todos; simpl; lia).
  replace (2 * List.length (91 :: 10 :: elements_text todos ++ [10; 93])%N)%nat
    with (List.length todos + 6
          + (2 * (List.length (elements_text todos) + 4) - List.length todos - 6))%nat.
  2:{ cbn [List.length]. rewrite length_app. cbn [List.length]. lia. }
  assert (Hb : starts_with 93 (skip_ws (elements_text todos ++ [10; 93])) = false).
  { subst todos. destruct l; reflexivity. }
  rewrite Hb. rewrite parse_elements_todos by (subst todos; discriminate).
  reflexivity.
Qed.

Lemma todo_of_json_of_todo t : todo_of_json (json_of_todo t) = Some t.
Proof. destruct t; reflexivity. Qed.

Lemma todos_of_elements_map l : todos_of_elements (map json_of_todo l) = Some l.
Proof.
  induction l as [|t l IH]; [reflexivity|].
  cbn [map todos_of_elements]. rewrite todo_of_json_of_todo, IH. reflexivity.
Qed.

(* ================================================================= *)
(** ** The document that is written has no lone surrogate *)

Lemma WF_nil : WF [].
Proof. intros b. reflexivity. Qed.

Lemma WF_app a b : WF a -> WF b -> WF (a ++ b).
Proof. intros Ha Hb x. rewrite <- !app_assoc, Ha, Hb. reflexivity. Qed.

Lemma WF_cons c s : plain c = true -> WF s -> WF (c :: s).
Proof.
  intros Hc Hs b. cbn [app toWellFormed].
  unfold plain in Hc. apply andb_true_iff in Hc as [Hh Hl].
  apply negb_true_iff in Hh, Hl. rewrite Hh, Hl, Hs. reflexivity.
Qed.

Lemma WF_plain s : forallb plain s = true -> WF s.
Proof.
  induction s as [|c s IH]; intros H; [apply WF_nil|].
  cbn [forallb] in H. apply andb_true_iff in H as [Hc Hs].
  apply WF_cons; auto.
Qed.

Lemma WF_pair c d s :
  is_high_surrogate c = true -> is_low_surrogate d = true -> WF s -> WF (c :: d :: s).
Proof.
  intros Hc Hd Hs b. cbn [app toWellFormed]. rewrite Hc, Hd, Hs. reflexivity.
Qed.

Lemma plain_hex_digit d : d < 16 -> plain (hex_digit d) = true.
Proof.
  intros H. unfold hex_digit, plain, is_high_surrogate, is_low_surrogate.
  destruct (d <? 10); rewrite andb_true_iff, !negb_true_iff; blia.
Qed.

Lemma WF_unicode_escape c : WF (unicode_escape c).
Proof.
  apply WF_plain. unfold unicode_escape. cbn [forallb].
  rewrite !plain_hex_digit by (apply N.mod_lt; discriminate). reflexivity.
Qed.

Lemma WF_quote_unit c : WF (quote_unit c).
Proof.
  unfold quote_unit.
  repeat match goal with
  | |- context [ if ?c =? ?k then _ else _ ] =>
      destruct (N.eqb_spec c k) as [->|?]; [apply WF_plain; reflexivity|]
  end.
  destruct ((c <? 32) || is_low_surrogate c || is_high_surrogate c) eqn:E.
  - apply WF_unicode_escape.
  - apply WF_plain. cbn [forallb]. unfold plain.
    apply orb_false_iff in E as [E Hh]. apply orb_false_iff in E as [_ Hl].
    rewrite Hh, Hl. reflexivity.
Qed.

Lemma WF_quote_body_aux n : forall s, (List.length s <= n)%nat -> WF (quote_body s).
Proof.
  induction n as [|n IH]; intros s Hn.
  - destruct s; [apply WF_nil | simpl in Hn; lia].
  - destruct s as [|c r]; [apply WF_nil|].
    simpl in Hn. cbn [quote_body].
    destruct (is_high_surrogate c) eqn:Hh.
    + destruct r as [|d r']; [apply WF_unicode_escape|].
      destruct (is_low_surrogate d) eqn:Hl.
      * apply WF_pair; auto. apply IH. simpl in Hn. lia.
      * apply WF_app; [apply WF_unicode_escape | apply IH; lia].
    + apply WF_app; [apply WF_quote_unit | apply IH; lia].
Qed.

Lemma WF_quote_body s : WF (quote_body s).
Proof. apply (WF_quote_body_aux (List.length s)). lia. Qed.

Lemma WF_QuoteJSONString s : WF (QuoteJSONString s).
Proof.
  unfold QuoteJSONString. apply WF_cons; [reflexivity|].
  apply WF_app; [apply WF_quote_body | apply WF_plain; reflexivity].
Qed.

Lemma WF_uint_text u : WF (uint_text u).
Proof. induction u; cbn [uint_text]; try apply WF_nil; apply WF_cons; auto. Qed.

Lemma WF_number_text z : WF (number_text z).
Proof.
  destruct z; cbn [number_text].
  - apply WF_plain; reflexivity.
  - apply WF_uint_text.
  - apply WF_cons; [reflexivity | apply WF_uint_text].
Qed.

Lemma WF_boolean_text b : WF (boolean_text b).
Proof. destruct b; apply WF_plain; reflexivity. Qed.

Lemma WF_member_text k v : WF v -> WF (member_text k v).
Proof.
  intros Hv. unfold member_text.
  repeat apply WF_app; auto using WF_QuoteJSONString; apply WF_plain; reflexivity.
Qed.

Lemma WF_todo_text t : WF (todo_text t).
Proof.
  unfold todo_text.
  repeat apply WF_app;
    auto using WF_member_text, WF_QuoteJSONString, WF_number_text, WF_boolean_text;
    apply WF_plain; reflexivity.
Qed.

Lemma WF_elements_text l : WF (elements_text l).
Proof.
  induction l as [|t l IH]; [apply WF_nil|].
  destruct l as [|t' l].
  - cbn [elements_text]. apply WF_app; [apply WF_plain; reflexivity | apply WF_todo_text].
  - change (elements_text (t :: t' :: l))
      with (indent1 ++ todo_text t ++ [44] ++ newline ++ elements_text (t' :: l)).
    apply WF_app; [apply WF_plain; reflexivity|].
    apply WF_app; [apply WF_todo_text|].
    apply WF_app; [apply WF_plain; reflexivity|].
    apply WF_app; [apply WF_plain; reflexivity | exact IH].
Qed.

Theorem toWellFormed_stringify l : toWellFormed (JSON_stringify l) = JSON_stringify l.
Proof.
  assert (H : WF (JSON_stringify l)).
  { destruct l as [|t l]; [apply WF_plain; reflexivity|].
    unfold JSON_stringify.
    apply WF_app; [apply WF_plain; reflexivity|].
    apply WF_app; [apply WF_plain; reflexivity|].
    apply WF_app; [apply WF_elements_text|].
    apply WF_app; apply WF_plain; reflexivity. }
  specialize (H []). cbn [toWellFormed] in H. rewrite !app_nil_r in H. exact H.
Qed.

(* ================================================================= *)
(** ** The parser never runs out of fuel *)

Lemma skip_ws_length s : (List.length (skip_ws s) <= List.length s)%nat.
Proof.
  induction s as [|c r IH]; [apply le_n|].
  cbn [skip_ws]. destruct (is_json_ws c); cbn [List.length]; lia.
Qed.

Lemma starts_with_tl c s :
  starts_with c s = true -> List.length s = S (List.length (tl s)).
Proof. destruct s; [discriminate | reflexivity]. Qed.

Lemma parse_string_body_shorter n : forall s t r,
  (List.length s <= n)%nat ->
  parse_string_body s = POk t r -> (List.length r < List.length s)%nat.
Proof.
  induction n as [|n IH]; intros s t r Hn H.
  - destruct s; [discriminate H | simpl in Hn; lia].
  - destruct s as [|c s]; [discriminate H|].
    cbn [parse_string_body] in H. cbn [List.length] in *.
    destruct (c =? 34).
    { injection H as _ <-. lia. }
    destruct (c =? 92).
    + destruct s as [|e s]; [discriminate H|]. cbn [List.length] in *.
      destruct (e =? 117).
      * destruct s as [|h1 [|h2 [|h3 [|h4 s]]]]; try discriminate H.
        destruct (hex4 h1 h2 h3 h4); [|discriminate H].
        destruct (parse_string_body s) as [t' r'| | |] eqn:E; try discriminate H.
        cbn [pbind] in H. injection H as _ <-.
        apply IH in E; cbn [List.length] in *; lia.
      * destruct (unescape e); [|discriminate H].
        destruct (parse_string_body s) as [t' r'| | |] eqn:E; try discriminate H.
        cbn [pbind] in H. injection H as _ <-.
        apply IH in E; lia.
    + destruct (c <? 32); [discriminate H|].
      destruct (parse_string_body s) as [t' r'| | |] eqn:E; try discriminate H.
      cbn [pbind] in H. injection H as _ <-.
      apply IH in E; lia.
Qed.

Lemma parse_string_body_fuel s : parse_string_body s <> PFuel.
Proof.
  assert (H : forall n s, (List.length s <= n)%nat -> parse_string_body s <> PFuel).
  { clear s. induction n as [|n IH]; intros s Hn.
    - destruct s; [discriminate | simpl in Hn; lia].
    - destruct s as [|c s]; [discriminate|].
      cbn [parse_string_body]. cbn [List.length] in Hn.
      destruct (c =? 34); [discriminate|].
      destruct (c =? 92).
      + destruct s as [|e s]; [discriminate|]. cbn [List.length] in Hn.
        destruct (e =? 117).
        * destruct s as [|h1 [|h2 [|h3 [|h4 s]]]]; try discriminate.
          destruct (hex4 h1 h2 h3 h4); [|discriminate].
          cbn [List.length] in Hn.
          specialize (IH s ltac:(lia)).
          destruct (parse_string_body s); cbn [pbind]; congruence.
        * destruct (unescape e); [|discriminate].
          specialize (IH s ltac:(lia)).
          destruct (parse_string_body s); cbn [pbind]; congruence.
      + destruct (c <? 32); [discriminate|].
        specialize (IH s ltac:(lia)).
        destruct (parse_string_body s); cbn [pbind]; congruence. }
  apply (H (List.length s)). lia.
Qed.

Lemma read_digits_length s :
  (List.length (snd (read_digits s)) <= List.length s)%nat
  /\ (fst (read_digits s) <> Decimal.Nil ->
      (List.length (snd (read_digits s)) < List.length s)%nat).
Proof.
  induction s as [|c r [IH1 IH2]]; [split; [apply le_n | intros H; contradiction]|].
  cbn [read_digits]. destruct (is_digit c).
  - destruct (read_digits r) as [u rest]. cbn [fst snd List.length] in *. split; [lia|].
    intros _. lia.
  - cbn [fst snd]. split; [apply le_n | intros H; contradiction].
Qed.

Lemma parse_digits_shorter negative s z r :
  parse_digits negative s = POk z r -> (List.length r < List.length s)%nat.
Proof.
  unfold parse_digits. pose proof (read_digits_length s) as [_ H].
  destruct (read_digits s) as [u rest]. cbn [fst snd] in H.
  destruct u as [|u|u|u|u|u|u|u|u|u|u]; try discriminate;
    try (destruct (starts_fraction_or_exponent rest); [discriminate|];
         intros E; injection E as _ <-; apply H; discriminate).
  destruct u; try discriminate.
  destruct (negative || starts_fraction_or_exponent rest); [discriminate|].
  intros E; injection E as _ <-; apply H; discriminate.
Qed.

Lemma parse_digits_fuel negative s : parse_digits negative s <> PFuel.
Proof.
  unfold parse_digits. destruct (read_digits s) as [u rest].
  destruct u as [|u|u|u|u|u|u|u|u|u|u]; try discriminate;
    try (destruct (starts_fraction_or_exponent rest); discriminate).
  destruct u; try discriminate.
  destruct (negative || starts_fraction_or_exponent rest); discriminate.
Qed.

Lemma strip_prefix_length p : forall s r,
  strip_prefix p s = Some r -> List.length s = (List.length p + List.length r)%nat.
Proof.
  induction p as [|a p IH]; intros s r H.
  - injection H as <-. reflexivity.
  - destruct s as [|b s]; [discriminate H|]. cbn [strip_prefix] in H.
    destruct (a =? b); [|discriminate H]. cbn [List.length]. rewrite (IH s r H). reflexivity.
Qed.

Lemma parse_literal_shorter s j r :
  parse_literal s = POk j r -> (List.length r < List.length s)%nat.
Proof.
  unfold parse_literal.
  destruct (strip_prefix [116; 114; 117; 101] s) as [r1|] eqn:E1.
  { intros H. injection H as _ <-. apply strip_prefix_length in E1. simpl in E1. lia. }
  destruct (strip_prefix [102; 97; 108; 115; 101] s) as [r2|] eqn:E2.
  { intros H. injection H as _ <-. apply strip_prefix_length in E2. simpl in E2. lia. }
  destruct (strip_prefix [110; 117; 108; 108] s) as [r3|] eqn:E3.
  { intros H. injection H as _ <-. apply strip_prefix_length in E3. simpl in E3. lia. }
  unfold parse_number.
  destruct (starts_with 45 s) eqn:Hs.
  - destruct (parse_digits true (tl s)) as [z r'| | |] eqn:E; try discriminate.
    cbn [pbind]. intros H. injection H as _ <-.
    apply parse_digits_shorter in E. rewrite (starts_with_tl _ _ Hs). lia.
  - destruct (parse_digits false s) as [z r'| | |] eqn:E; try discriminate.
    cbn [pbind]. intros H. injection H as _ <-.
    apply parse_digits_shorter in E. exact E.
Qed.

Lemma parse_literal_fuel s : parse_literal s <> PFuel.
Proof.
  unfold parse_literal.
  destruct (strip_prefix [116; 114; 117; 101] s); [discriminate|].
  destruct (strip_prefix [102; 97; 108; 115; 101] s); [discriminate|].
  destruct (strip_prefix [110; 117; 108; 108] s); [discriminate|].
  unfold parse_number.
  destruct (starts_with 45 s).
  - pose proof (parse_digits_fuel true (tl s)).
    destruct (parse_digits true (tl s)); cbn [pbind]; congruence.
  - pose proof (parse_digits_fuel false s).
    destruct (parse_digits false s); cbn [pbind]; congruence.
Qed.

Lemma tl_length (s : text) : (List.length (tl s) <= List.length s)%nat.
Proof. destruct s; cbn [tl List.length]; lia. Qed.

(** A parsed value consumed at least one character. *)
Lemma parse_shorter fuel :
  (forall s v r, parse_value fuel s = POk v r -> (List.length r < List.length s)%nat)
  /\ (forall s acc v r,
        parse_elements fuel s acc = POk v r -> (List.length r < List.length s)%nat)
  /\ (forall s acc v r,
        parse_members fuel s acc = POk v r -> (List.length r < List.length s)%nat).
Proof.
  induction fuel as [|fuel (IHv & IHe & IHm)];
    [repeat split; intros; discriminate|].
  split; [|split].
  - intros s v r H. cbn [parse_value] in H.
    destruct (starts_with 34 s) eqn:H34.
    { destruct (parse_string_body (tl s)) as [t r'| | |] eqn:E; try discriminate H.
      cbn [pbind] in H. injection H as _ <-.
      apply (parse_string_body_shorter _ _ _ _ (le_n _)) in E.
      rewrite (starts_with_tl _ _ H34). lia. }
    destruct (starts_with 91 s) eqn:H91.
    { cbv zeta in H. pose proof (skip_ws_length (tl s)) as Hk.
      rewrite (starts_with_tl _ _ H91).
      destruct (starts_with 93 (skip_ws (tl s))) eqn:H93.
      - injection H as _ <-. pose proof (tl_length (skip_ws (tl s))). lia.
      - apply IHe in H. lia. }
    destruct (starts_with 123 s) eqn:H123.
    { cbv zeta in H. pose proof (skip_ws_length (tl s)) as Hk.
      rewrite (starts_with_tl _ _ H123).
      destruct (starts_with 125 (skip_ws (tl s))) eqn:H125.
      - injection H as _ <-. pose proof (tl_length (skip_ws (tl s))). lia.
      - apply IHm in H. lia. }
    apply parse_literal_shorter in H. exact H.
  - intros s acc v r H. cbn [parse_elements] in H.
    destruct (parse_value fuel s) as [v' rest| | |] eqn:E; try discriminate H.
    cbn [pbind] in H. cbv zeta in H. apply IHv in E.
    pose proof (skip_ws_length rest) as Hk.
    pose proof (tl_length (skip_ws rest)) as Ht.
    destruct (starts_with 44 (skip_ws rest)).
    + apply IHe in H. pose proof (skip_ws_length (tl (skip_ws rest))). lia.
    + destruct (starts_with 93 (skip_ws rest)); [|discriminate H].
      injection H as _ <-. lia.
  - intros s acc v r H. cbn [parse_members] in H.
    destruct (starts_with 34 s) eqn:H34; [|discriminate H].
    destruct (parse_string_body (tl s)) as [k rest| | |] eqn:E; try discriminate H.
    cbn [pbind] in H. cbv zeta in H.
    apply (parse_string_body_shorter _ _ _ _ (le_n _)) in E.
    pose proof (tl_length s) as Hts.
    pose proof (skip_ws_length rest) as Hk.
    pose proof (tl_length (skip_ws rest)) as Ht.
    pose proof (skip_ws_length (tl (skip_ws rest))) as Hk2.
    destruct (starts_with 58 (skip_ws rest)); [|discriminate H].
    destruct (parse_value fuel (skip_ws (tl (skip_ws rest)))) as [v' rest'| | |] eqn:Ev;
      try discriminate H.
    cbn [pbind] in H. apply IHv in Ev.
    pose proof (skip_ws_length rest') as Hk3.
    pose proof (tl_length (skip_ws rest')) as Ht3.
    destruct (starts_with 44 (skip_ws rest')).
    + apply IHm in H. pose proof (skip_ws_length (tl (skip_ws rest'))). lia.
    + destruct (starts_with 125 (skip_ws rest')); [|discriminate H].
      injection H as _ <-. lia.
Qed.

(** Twice the length of the input pays for every call. *)
Lemma parse_fuel fuel :
  (forall s, (2 * List.length s < fuel)%nat -> parse_value fuel s <> PFuel)
  /\ (forall s acc, (2 * List.length s + 1 < fuel)%nat -> parse_elements fuel s acc <> PFuel)
  /\ (forall s acc, (2 * List.length s + 1 < fuel)%nat -> parse_members fuel s acc <> PFuel).
Proof.
  induction fuel as [|fuel (IHv & IHe & IHm)];
    [repeat split; intros; lia|].
  split; [|split].
  - intros s Hf. cbn [parse_value].
    destruct (starts_with 34 s) eqn:H34.
    { pose proof (parse_string_body_fuel (tl s)).
      destruct (parse_string_body (tl s)); cbn [pbind]; congruence. }
    destruct (starts_with 91 s) eqn:H91.
    { cbv zeta. pose proof (skip_ws_length (tl s)) as Hk.
      rewrite (starts_with_tl _ _ H91) in Hf.
      destruct (starts_with 93 (skip_ws (tl s))); [discriminate|].
      apply IHe. lia. }
    destruct (starts_with 123 s) eqn:H123.
    { cbv zeta. pose proof (skip_ws_length (tl s)) as Hk.
      rewrite (starts_with_tl _ _ H123) in Hf.
      destruct (starts_with 125 (skip_ws (tl s))); [discriminate|].
      apply IHm. lia. }
    apply parse_literal_fuel.
  - intros s acc Hf. cbn [parse_elements].
    pose proof (IHv s ltac:(lia)) as Hv.
    destruct (parse_value fuel s) as [v rest| | |] eqn:E; try congruence; try discriminate.
    cbn [pbind]. cbv zeta.
    apply (proj1 (parse_shorter fuel)) in E.
    pose proof (skip_ws_length rest) as Hk.
    pose proof (tl_length (skip_ws rest)) as Ht.
    pose proof (skip_ws_length (tl (skip_ws rest))) as Hk2.
    destruct (starts_with 44 (skip_ws rest)); [apply IHe; lia|].
    destruct (starts_with 93 (skip_ws rest)); discriminate.
  - intros s acc Hf. cbn [parse_members].
    destruct (starts_with 34 s) eqn:H34; [|discriminate].
    pose proof (parse_string_body_fuel (tl s)) as Hs.
    destruct (parse_string_body (tl s)) as [k rest| | |] eqn:E; try congruence; try discriminate.
    cbn [pbind]. cbv zeta.
    apply (parse_string_body_shorter _ _ _ _ (le_n _)) in E.
    pose proof (tl_length s) as Hts.
    pose proof (skip_ws_length rest) as Hk.
    pose proof (tl_length (skip_ws rest)) as Ht.
    pose proof (skip_ws_length (tl (skip_ws rest))) as Hk2.
    destruct (starts_with 58 (skip_ws rest)); [|discriminate].
    pose proof (IHv (skip_ws (tl (skip_ws rest))) ltac:(lia)) as Hv.
    destruct (parse_value fuel (skip_ws (tl (skip_ws rest)))) as [v rest'| | |] eqn:Ev;
      try congruence; try discriminate.
    cbn [pbind].
    apply (proj1 (parse_shorter fuel)) in Ev.
    pose proof (skip_ws_length rest') as Hk3.
    pose proof (tl_length (skip_ws rest')) as Ht3.
    pose proof (skip_ws_length (tl (skip_ws rest'))) as Hk4.
    destruct (starts_with 44 (skip_ws rest')); [apply IHm; lia|].
    destruct (starts_with 125 (skip_ws rest')); discriminate.
Qed.

Theorem JSON_parse_fuel s :
  parse_value (S (2 * List.length s)) (skip_ws s) <> PFuel.
Proof.
  apply (proj1 (parse_fuel _)). pose proof (skip_ws_length s). lia.
Qed.

(* ================================================================= *)
(** ** The store *)

Lemma writeTodosToFile_ok w todos :
  write_fault w = None -> writeTodosToFile todos w = Ret tt (saved todos w).
Proof.
  intros Hw. unfold writeTodosToFile, try_catch, fs_writeFile, saved.
  rewrite Hw, toWellFormed_stringify. reflexivity.
Qed.

Lemma writeTodosToFile_fault w todos f :
  write_fault w = Some f ->
  writeTodosToFile todos w = Throw (WriteFailed (FsError (Fault f))) w.
Proof.
  intros Hw. unfold writeTodosToFile, try_catch, fs_writeFile. rewrite Hw. reflexivity.
Qed.

Lemma todos_of_json_of_todos l : todos_of_json (JArr (map json_of_todo l)) = Some l.
Proof. apply todos_of_elements_map. Qed.

Lemma stored_saved w todos : read_fault w = None -> stored (saved todos w) todos.
Proof.
  intros Hr. unfold stored, collection, saved. cbn [file read_fault].
  rewrite Hr, JSON_parse_stringify. apply todos_of_json_of_todos.
Qed.

Lemma stored_read_fault w todos : stored w todos -> read_fault w = None.
Proof.
  unfold stored, collection. destruct (file w); [|discriminate].
  destruct (read_fault w); [discriminate | reflexivity].
Qed.

Lemma readTodosFromFile_stored w todos :
  stored w todos ->
  exists j, readTodosFromFile w = Ret j w /\ todos_of_json j = Some todos.
Proof.
  unfold stored, collection. intros H.
  destruct (file w) as [content|] eqn:Hf; [|discriminate].
  destruct (read_fault w) eqn:Hr; [discriminate|].
  destruct (JSON_parse content) as [j| |] eqn:Hp; try discriminate.
  exists j. split; [|exact H].
  unfold readTodosFromFile, try_catch, bind, fs_readFile, json_parse.
  rewrite Hf, Hr, Hp. reflexivity.
Qed.

(** Reading a stored collection leaves the world as it is. *)
Lemma load_stored {B} w todos (k : list Todo -> M B) :
  stored w todos ->
  (j <- readTodosFromFile ;; todos <- as_todos j ;; k todos) w = k todos w.
Proof.
  intros H. destruct (readTodosFromFile_stored w todos H) as (j & Hj & Ht).
  unfold bind at 1. rewrite Hj. unfold bind, as_todos. rewrite Ht. reflexivity.
Qed.

Lemma generateUniqueId_stored w todos :
  stored w todos -> generateUniqueId w = Ret (next_id todos) w.
Proof.
  intros H. unfold generateUniqueId. rewrite (load_stored w todos) by exact H.
  unfold next_id. destruct todos as [|t r]; reflexivity.
Qed.

Lemma fold_max_ge r : forall x, (x <= fold_left Z.max r x)%Z.
Proof.
  induction r as [|y r IH]; intros x; cbn [fold_left]; [lia|].
  specialize (IH (Z.max x y)). lia.
Qed.

Lemma fold_max_upper r : forall x y, In y r -> (y <= fold_left Z.max r x)%Z.
Proof.
  induction r as [|z r IH]; intros x y Hy; [contradiction|].
  cbn [fold_left]. destruct Hy as [->|Hy].
  - pose proof (fold_max_ge r (Z.max x y)). lia.
  - apply IH, Hy.
Qed.

Lemma fold_max_in r : forall x, In (fold_left Z.max r x) (x :: r).
Proof.
  induction r as [|z r IH]; intros x; cbn [fold_left]; [left; reflexivity|].
  destruct (IH (Z.max x z)) as [E|E].
  - rewrite <- E. destruct (Z.max_spec x z) as [[_ ->]|[_ ->]];
      [right; left | left]; reflexivity.
  - right; right; exact E.
Qed.

(** Up to 2^53 in magnitude every integer is a Number. *)
Lemma Number_of_Z_exact z :
  (Z.abs z <= MAX_SAFE_INTEGER + 1)%Z -> Number_of_Z z = z.
Proof.
  unfold MAX_SAFE_INTEGER. intros H.
  destruct (Z.eq_dec (Z.abs z) 9007199254740992) as [E|E].
  - assert (Hz : z = 9007199254740992%Z \/ z = (-9007199254740992)%Z) by lia.
    destruct Hz as [-> | ->]; vm_compute; reflexivity.
  - unfold Number_of_Z.
    assert (Hlog : (Z.log2 (Z.abs z) - 52 <= 0)%Z).
    { destruct (Z.eq_dec (Z.abs z) 0) as [->|Hnz]; [cbn; lia|].
      assert (Hlt : (Z.log2 (Z.abs z) < 53)%Z) by (apply Z.log2_lt_pow2; lia).
      lia. }
    apply Z.leb_le in Hlog. rewrite Hlog. reflexivity.
Qed.

Lemma is_safe_integer_abs z :
  is_safe_integer z = true <-> (Z.abs z <= MAX_SAFE_INTEGER)%Z.
Proof.
  unfold is_safe_integer. rewrite andb_true_iff, !Z.leb_le.
  unfold MAX_SAFE_INTEGER. lia.
Qed.

(** Beyond 2^53 a sum is rounded: 2^53 + 1 is 2^53 again. *)
Lemma Number_add_rounds :
  Number_add 9007199254740992 1 = 9007199254740992%Z
  /\ Number_add 9007199254740994 1 = 9007199254740996%Z.
Proof. split; vm_compute; reflexivity. Qed.

(** [next_id] is the Number sum of the greatest id and 1, and 1 for no
    todo. *)
Lemma next_id_max todos :
  (todos = [] -> next_id todos = 1%Z)
  /\ (todos <> [] ->
      exists m, In m (map id todos)
                /\ (forall t, In t todos -> (id t <= m)%Z)
                /\ next_id todos = Number_add m 1).
Proof.
  split; [intros ->; reflexivity|].
  intros Hne. destruct todos as [|t r]; [contradiction|].
  unfold next_id. cbn [map].
  exists (fold_left Z.max (map id r) (id t)). split; [apply fold_max_in|]. split; [|reflexivity].
  intros u [<-|Hu]; [apply fold_max_ge|].
  apply fold_max_upper, in_map, Hu.
Qed.

(** On safe ids the sum is exact: [next_id] is one more than the greatest
    id. *)
Lemma next_id_spec todos :
  safe_ids todos ->
  (todos = [] -> next_id todos = 1%Z)
  /\ (todos <> [] ->
      exists m, In m (map id todos)
                /\ (forall t, In t todos -> (id t <= m)%Z)
                /\ next_id todos = (m + 1)%Z).
Proof.
  intros Hsafe. destruct (next_id_max todos) as [H0 H1]. split; [exact H0|].
  intros Hne. destruct (H1 Hne) as (m & Hin & Hmax & E).
  exists m. split; [exact Hin|]. split; [exact Hmax|].
  rewrite E. unfold Number_add. apply Number_of_Z_exact.
  apply in_map_iff in Hin as (u & <- & Hu).
  unfold safe_ids in Hsafe. rewrite Forall_forall in Hsafe.
  apply Hsafe, is_safe_integer_abs in Hu. lia.
Qed.

Lemma next_id_greater todos t :
  safe_ids todos -> In t todos -> (id t < next_id todos)%Z.
Proof.
  intros Hsafe Ht. destruct (next_id_spec todos Hsafe) as [_ H].
  destruct H as (m & _ & Hm & ->); [intros ->; contradiction|].
  specialize (Hm t Ht). lia.
Qed.

Lemma next_id_positive todos :
  safe_ids todos -> Forall (fun t => (0 < id t)%Z) todos -> (0 < next_id todos)%Z.
Proof.
  intros Hsafe Hp. destruct todos as [|t r]; [reflexivity|].
  pose proof (next_id_greater (t :: r) t Hsafe (or_introl eq_refl)).
  apply Forall_inv in Hp. lia.
Qed.

(* ================================================================= *)
(** ** POST /todo *)

Lemma bind_ret_l {A B} (c : M A) (k : A -> M B) w a w' :
  c w = Ret a w' -> bind c k w = k a w'.
Proof. intros H. unfold bind. rewrite H. reflexivity. Qed.

Lemma bind_throw_l {A B} (c : M A) (k : A -> M B) w e w' :
  c w = Throw e w' -> bind c k w = Throw e w'.
Proof. intros H. unfold bind. rewrite H. reflexivity. Qed.

(** What [POST] does on a stored collection, in every case. *)
Lemma post_todo_stored now w todos body :
  stored w todos ->
  post_todo now body w
  = if negb (truthy (b_title body)) || negb (is_string (b_title body))
    then Ret (failure 400 MsgTitleRequired) w
    else
      match write_fault w with
      | Some f => Ret (failure 500 (MsgError (WriteFailed (FsError (Fault f))))) w
      | None =>
          Ret (created_response (new_todo now todos body))
              (saved (todos ++ [new_todo now todos body]) w)
      end.
Proof.
  intros Hs. unfold post_todo, try_catch.
  destruct (negb (truthy (b_title body)) || negb (is_string (b_title body))) eqn:Hv;
    [reflexivity|].
  rewrite (load_stored w todos) by exact Hs.
  rewrite (bind_ret_l _ _ _ _ _ (generateUniqueId_stored w todos Hs)).
  apply orb_false_iff in Hv as [_ Hstr]. apply negb_false_iff in Hstr.
  destruct (b_title body) as [[| | | |s| |]|] eqn:Ht; try discriminate.
  cbn [call_trim]. unfold bind at 1. unfold ret at 1.
  assert (Hnew : {| id := next_id todos; title := trim s;
                    completed := truthy match b_completed body with
                                        | Some c => Some c
                                        | None => Some (JBool false)
                                        end;
                    createTime := now |} = new_todo now todos body).
  { unfold new_todo. rewrite Ht. destruct (b_completed body); reflexivity. }
  rewrite Hnew.
  destruct (write_fault w) as [f|] eqn:Hw.
  - rewrite (bind_throw_l _ _ _ _ _ (writeTodosToFile_fault w _ f Hw)). reflexivity.
  - rewrite (bind_ret_l _ _ _ _ _ (writeTodosToFile_ok w _ Hw)). reflexivity.
Qed.

(** C1 as it is stated does not hold: the id is computed on Numbers, and
    on a collection whose greatest id is 2^53 the created todo is given
    the id 2^53 again. *)
Lemma new_id_can_repeat : ~ new_id_exceeds_every_id.
Proof.
  intros H.
  destruct (H sample_now (world_of [todo_2_53]) [todo_2_53]
              (body_with_title "buy milk") (lit "buy milk"))
    as (newTodo & w' & Hpost & Hgreater);
    [vm_compute; reflexivity | reflexivity | reflexivity | discriminate |].
  specialize (Hgreater todo_2_53 (or_introl eq_refl)).
  vm_compute in Hpost. injection Hpost as <- _.
  vm_compute in Hgreater. discriminate Hgreater.
Qed.

(** C1, as amended.  On every stored collection whose ids are safe
    integers a [POST /todo] with a valid title (a non-empty string) answers
    201 and appends a todo whose id is 1 when the collection is empty and
    the greatest stored id plus one otherwise, hence greater than every
    stored id; the todo in the response carries the trimmed title,
    [completed = false] when the body omits it, and the time of
    creation. *)
Theorem post_todo_creates now w todos body t :
  stored w todos -> write_fault w = None -> safe_ids todos ->
  property k_title body = Some (JStr t) -> t <> [] ->
  exists newTodo,
    post_todo now body w
    = Ret {| status := 201; success := true; msg := Some MsgCreated;
             count := None; data := Some (OneTodo newTodo) |}
          (saved (todos ++ [newTodo]) w)
    /\ stored (saved (todos ++ [newTodo]) w) (todos ++ [newTodo])
    /\ (todos = [] -> id newTodo = 1%Z)
    /\ (todos <> [] ->
        exists m, In m (map id todos)
                  /\ (forall u, In u todos -> (id u <= m)%Z)
                  /\ id newTodo = (m + 1)%Z)
    /\ (forall u, In u todos -> (id u < id newTodo)%Z)
    /\ title newTodo = trim t
    /\ (property k_completed body = None -> completed newTodo = false)
    /\ (forall c, property k_completed body = Some c ->
                  completed newTodo = truthy (Some c))
    /\ createTime newTodo = now.
Proof.
  intros Hs Hw Hsafe Ht Hne.
  change (property k_title body) with (b_title body) in Ht.
  change (property k_completed body) with (b_completed body).
  exists (new_todo now todos body).
  split; [|split; [|split; [|split; [|split; [|split; [|split; [|split]]]]]]].
  - rewrite (post_todo_stored now w todos body Hs), Ht, Hw.
    destruct t; [contradiction | reflexivity].
  - apply stored_saved. eapply stored_read_fault; eassumption.
  - apply next_id_spec, Hsafe.
  - apply next_id_spec, Hsafe.
  - intros u Hu. apply next_id_greater; assumption.
  - unfold new_todo. rewrite Ht. reflexivity.
  - intros E. unfold new_todo. rewrite E. reflexivity.
  - intros c E. unfold new_todo. rewrite E. reflexivity.
  - reflexivity.
Qed.

(** C5. A [POST /todo] whose body has no title, or a title that is not a
    string, answers 400 and touches nothing: the world is the same. *)
Theorem post_todo_rejects now w body :
  is_string (b_title body) = false ->
  post_todo now body w = Ret (failure 400 MsgTitleRequired) w.
Proof.
  intros H. unfold post_todo, try_catch. rewrite H, orb_true_r. reflexivity.
Qed.

Lemma trimStart_spaces s : forallb is_space s = true -> trimStart s = [].
Proof.
  induction s as [|c r IH]; [reflexivity|].
  cbn [forallb trimStart]. intros H. apply andb_true_iff in H as [-> Hr]. auto.
Qed.

Lemma trim_spaces s : forallb is_space s = true -> trim s = [].
Proof. intros H. unfold trim. rewrite trimStart_spaces by exact H. reflexivity. Qed.

(** C10. A [POST /todo] whose title is a non-empty string of white space
    passes validation, answers 201 and stores a todo whose title is the
    empty string. *)
Theorem post_todo_blank_title now w todos body t :
  stored w todos -> write_fault w = None ->
  b_title body = Some (JStr t) -> t <> [] -> forallb is_space t = true ->
  exists newTodo,
    post_todo now body w
    = Ret {| status := 201; success := true; msg := Some MsgCreated;
             count := None; data := Some (OneTodo newTodo) |}
          (saved (todos ++ [newTodo]) w)
    /\ stored (saved (todos ++ [newTodo]) w) (todos ++ [newTodo])
    /\ title newTodo = [].
Proof.
  intros Hs Hw Ht Hne Hsp.
  exists (new_todo now todos body). split; [|split].
  - rewrite (post_todo_stored now w todos body Hs), Ht, Hw.
    destruct t; [contradiction | reflexivity].
  - apply stored_saved. eapply stored_read_fault; eassumption.
  - unfold new_todo. rewrite Ht. apply trim_spaces, Hsp.
Qed.

(* ================================================================= *)
(** ** GET *)

Lemma get_todos_stored w todos :
  stored w todos ->
  get_todos w
  = Ret {| status := 200; success := true; msg := None;
           count := Some (List.length todos); data := Some (Todos todos) |} w.
Proof.
  intros Hs. unfold get_todos, try_catch. rewrite (load_stored w todos) by exact Hs.
  reflexivity.
Qed.

Lemma get_todo_stored w todos p :
  stored w todos ->
  get_todo p w
  = Ret (match find (id_is (parseInt p)) todos with
         | None => failure 404 (MsgNotFound (parseInt p))
         | Some todo =>
             {| status := 200; success := true; msg := None;
                count := None; data := Some (OneTodo todo) |}
         end) w.
Proof.
  intros Hs. unfold get_todo, try_catch. rewrite (load_stored w todos) by exact Hs.
  destruct (find (id_is (parseInt p)) todos); reflexivity.
Qed.

Lemma find_none {A} (p : A -> bool) l : (forall x, In x l -> p x = false) -> find p l = None.
Proof.
  induction l as [|x r IH]; intros H; [reflexivity|].
  cbn [find]. rewrite (H x (or_introl eq_refl)). apply IH. intros y Hy. apply H. right; exact Hy.
Qed.

Lemma findIndex_none {A} (p : A -> bool) l :
  (forall x, In x l -> p x = false) -> findIndex p l = None.
Proof.
  induction l as [|x r IH]; intros H; [reflexivity|].
  cbn [findIndex]. rewrite (H x (or_introl eq_refl)).
  rewrite IH; [reflexivity|]. intros y Hy. apply H. right; exact Hy.
Qed.

(** The first match splits the array. *)
Lemma findIndex_some {A} (p : A -> bool) l i :
  findIndex p l = Some i ->
  exists l1 x l2, l = l1 ++ x :: l2 /\ List.length l1 = i /\ p x = true
                  /\ (forall y, In y l1 -> p y = false).
Proof.
  revert i. induction l as [|x r IH]; intros i H; [discriminate|].
  cbn [findIndex] in H. destruct (p x) eqn:Hx.
  - injection H as <-. exists [], x, r. repeat split; auto. intros y [].
  - destruct (findIndex p r) as [j|] eqn:Hj; [|discriminate]. injection H as <-.
    destruct (IH j eq_refl) as (l1 & y & l2 & -> & Hl & Hy & Hn).
    exists (x :: l1), y, l2. repeat split; auto.
    + simpl. rewrite Hl. reflexivity.
    + intros z [<-|Hz]; auto.
Qed.

Lemma findIndex_split {A} (p : A -> bool) l1 x l2 :
  p x = true -> (forall y, In y l1 -> p y = false) ->
  findIndex p (l1 ++ x :: l2) = Some (List.length l1).
Proof.
  intros Hx. induction l1 as [|y l1 IH]; intros Hn; cbn [app findIndex List.length].
  - rewrite Hx. reflexivity.
  - rewrite (Hn y (or_introl eq_refl)). rewrite IH; [reflexivity|].
    intros z Hz. apply Hn. right; exact Hz.
Qed.

Lemma findIndex_none_inv {A} (p : A -> bool) l :
  findIndex p l = None -> forall x, In x l -> p x = false.
Proof.
  induction l as [|y r IH]; intros H x Hx; [contradiction|].
  cbn [findIndex] in H. destruct (p y) eqn:Hy; [discriminate|].
  destruct (findIndex p r); [discriminate|].
  destruct Hx as [<-|Hx]; auto.
Qed.

Lemma find_split {A} (p : A -> bool) l1 x l2 :
  p x = true -> (forall y, In y l1 -> p y = false) ->
  find p (l1 ++ x :: l2) = Some x.
Proof.
  intros Hx. induction l1 as [|y l1 IH]; intros Hn; cbn [app find].
  - rewrite Hx. reflexivity.
  - rewrite (Hn y (or_introl eq_refl)). apply IH.
    intros z Hz. apply Hn. right; exact Hz.
Qed.

Lemma nth_error_split {A} (l1 : list A) x l2 :
  nth_error (l1 ++ x :: l2) (List.length l1) = Some x.
Proof. induction l1; [reflexivity | assumption]. Qed.

Lemma assign_split {A} (l1 : list A) x l2 y :
  assign (l1 ++ x :: l2) (List.length l1) y = l1 ++ y :: l2.
Proof. induction l1 as [|z l1 IH]; [reflexivity|]. cbn. rewrite IH. reflexivity. Qed.

Lemma splice1_split {A} (l1 : list A) x l2 :
  splice1 (l1 ++ x :: l2) (List.length l1) = l1 ++ l2.
Proof. induction l1 as [|z l1 IH]; [reflexivity|]. cbn. rewrite IH. reflexivity. Qed.

Lemma id_is_NaN t : id_is None t = false.
Proof. reflexivity. Qed.

(* ================================================================= *)
(** ** PUT /todo/:id *)

Lemma put_todo_missing w todos p body :
  stored w todos ->
  (forall t, In t todos -> id_is (parseInt p) t = false) ->
  put_todo p body w = Ret (failure 404 (MsgUpdateMissing (parseInt p))) w.
Proof.
  intros Hs Hn. unfold put_todo, try_catch. rewrite (load_stored w todos) by exact Hs.
  rewrite findIndex_none by exact Hn. reflexivity.
Qed.

(** The [...(title && { title: title.trim() })] part of the update. *)
Lemma put_title_part old title w :
  (if truthy title
   then trimmed <- call_trim title ;; ret (with_title old trimmed)
   else ret old) w
  = if truthy title && negb (is_string title) then Throw TypeError w
    else Ret match title with
             | Some (JStr (c :: s)) => with_title old (trim (c :: s))
             | _ => old
             end w.
Proof.
  destruct title as [[|b|n| |[|c s]|l|m]|]; cbn [truthy is_string negb andb call_trim];
    try (destruct b); try (destruct (n =? 0)%Z); reflexivity.
Qed.

Lemma shallow_merge_eq old body :
  match b_completed body with
  | Some c =>
      with_completed
        match b_title body with
        | Some (JStr (c :: s)) => with_title old (trim (c :: s))
        | _ => old
        end (truthy (Some c))
  | None =>
      match b_title body with
      | Some (JStr (c :: s)) => with_title old (trim (c :: s))
      | _ => old
      end
  end = shallow_merge old body.
Proof.
  unfold shallow_merge, with_completed, with_title.
  destruct old as [i ti co ct]. cbn [id title completed createTime].
  destruct (b_title body) as [[| | | |[|c s]| |]|]; destruct (b_completed body); reflexivity.
Qed.

(** What [PUT] does when the id is found, in every case. *)
Lemma put_todo_found w l1 old l2 p body :
  stored w (l1 ++ old :: l2) ->
  id_is (parseInt p) old = true ->
  (forall t, In t l1 -> id_is (parseInt p) t = false) ->
  put_todo p body w
  = if truthy (b_title body) && negb (is_string (b_title body))
    then Ret (failure 500 (MsgError TypeError)) w
    else
      match write_fault w with
      | Some f => Ret (failure 500 (MsgError (WriteFailed (FsError (Fault f))))) w
      | None =>
          Ret (updated_response (shallow_merge old body))
              (saved (l1 ++ shallow_merge old body :: l2) w)
      end.
Proof.
  intros Hs Ho Hn. unfold put_todo, try_catch.
  rewrite (load_stored w _) by exact Hs.
  rewrite findIndex_split by assumption. rewrite nth_error_split.
  pose proof (put_title_part old (b_title body) w) as Ht.
  destruct (truthy (b_title body) && negb (is_string (b_title body))).
  - rewrite (bind_throw_l _ _ _ _ _ Ht). reflexivity.
  - rewrite (bind_ret_l _ _ _ _ _ Ht). rewrite assign_split, shallow_merge_eq.
    destruct (write_fault w) as [f|] eqn:Hw.
    + rewrite (bind_throw_l _ _ _ _ _ (writeTodosToFile_fault w _ f Hw)). reflexivity.
    + rewrite (bind_ret_l _ _ _ _ _ (writeTodosToFile_ok w _ Hw)). reflexivity.
Qed.




(* ================================================================= *)
(** ** DELETE /todo/:id *)

Lemma delete_todo_missing w todos p :
  stored w todos ->
  (forall t, In t todos -> id_is (parseInt p) t = false) ->
  delete_todo p w = Ret (failure 404 (MsgDeleteMissing (parseInt p))) w.
Proof.
  intros Hs Hn. unfold delete_todo, try_catch. rewrite (load_stored w todos) by exact Hs.
  rewrite findIndex_none by exact Hn. reflexivity.
Qed.

Lemma delete_todo_found w l1 x l2 p :
  stored w (l1 ++ x :: l2) ->
  id_is (parseInt p) x = true ->
  (forall t, In t l1 -> id_is (parseInt p) t = false) ->
  delete_todo p w
  = match write_fault w with
    | Some f => Ret (failure 500 (MsgError (WriteFailed (FsError (Fault f))))) w
    | None => Ret (deleted_response (parseInt p)) (saved (l1 ++ l2) w)
    end.
Proof.
  intros Hs Hx Hn. unfold delete_todo, try_catch.
  rewrite (load_stored w _) by exact Hs.
  rewrite findIndex_split by assumption. rewrite splice1_split.
  destruct (write_fault w) as [f|] eqn:Hw.
  - rewrite (bind_throw_l _ _ _ _ _ (writeTodosToFile_fault w _ f Hw)). reflexivity.
  - rewrite (bind_ret_l _ _ _ _ _ (writeTodosToFile_ok w _ Hw)). reflexivity.
Qed.



(* ================================================================= *)
(** ** Path parameters that are not numbers *)

(** C7 as it is stated does not hold: the parameter [12abc] is not a
    number, yet [parseInt] reads 12 from it and the todo with that id is
    found. *)
Lemma non_numeric_id_can_hit : ~ non_numeric_id_always_misses.
Proof.
  intros H.
  destruct (H (lit "12abc") (world_of [todo12]) [todo12] body_not_completed)
    as ((resp & Hr & Hst) & _).
  - reflexivity.
  - vm_compute. reflexivity.
  - vm_compute in Hr. injection Hr as <-. discriminate Hst.
Qed.

(** A parameter that starts with neither white space, a sign nor a decimal
    digit is one of those [parseInt] cannot read. *)
Lemma parseInt_not_a_number c r :
  is_space c = false -> c <> 45 -> c <> 43 -> digit_value 10 c = None ->
  parseInt (c :: r) = None.
Proof.
  intros Hs H45 H43 Hd. unfold parseInt. cbn [trimStart]. rewrite Hs.
  cbn [starts_with].
  apply N.eqb_neq in H45, H43. rewrite H45, H43. cbn [orb starts_with].
  destruct (N.eqb_spec c 48) as [->|_]; [discriminate Hd|].
  cbn [andb digits_prefix]. rewrite Hd. reflexivity.
Qed.

Lemma parseInt_empty : parseInt [] = None.
Proof. reflexivity. Qed.

(** C7, as amended.  A path parameter from which [parseInt] reads no
    integer is NaN, equals no stored id, and [GET], [PUT] and [DELETE]
    answer 404 and leave the world as it is. *)
Theorem unparsable_id_misses w todos p body :
  parseInt p = None -> stored w todos ->
  get_todo p w = Ret (failure 404 (MsgNotFound None)) w
  /\ put_todo p body w = Ret (failure 404 (MsgUpdateMissing None)) w
  /\ delete_todo p w = Ret (failure 404 (MsgDeleteMissing None)) w.
Proof.
  intros Hp Hs. split; [|split].
  - rewrite (get_todo_stored w todos p Hs), Hp, find_none; [reflexivity|].
    intros; apply id_is_NaN.
  - rewrite <- Hp. apply (put_todo_missing w todos p body Hs).
    intros. rewrite Hp. apply id_is_NaN.
  - rewrite <- Hp. apply (delete_todo_missing w todos p Hs).
    intros. rewrite Hp. apply id_is_NaN.
Qed.

(* ================================================================= *)
(** ** The invariant of the collection *)

Lemma unique_positive_ids_map l l' :
  map id l' = map id l -> unique_positive_ids l -> unique_positive_ids l'.
Proof.
  intros E [Hn Hp]. split; [rewrite E; exact Hn|].
  rewrite Forall_forall in *. intros t Ht.
  assert (Hi : In (id t) (map id l)) by (rewrite <- E; apply in_map, Ht).
  apply in_map_iff in Hi as (u & Hu & Hin). rewrite <- Hu. apply Hp, Hin.
Qed.

Lemma unique_positive_ids_push l t :
  unique_positive_ids l -> (0 < id t)%Z -> (forall u, In u l -> (id u < id t)%Z) ->
  unique_positive_ids (l ++ [t]).
Proof.
  intros [Hn Hp] Ht Hlt. split.
  - rewrite map_app. cbn [map]. apply NoDup_app.
    { exact Hn. } { constructor; [intros []|constructor]. }
    intros x Hx [<-|[]]. apply in_map_iff in Hx as (u & Hu & Hin).
    specialize (Hlt u Hin). lia.
  - apply Forall_app. split; [exact Hp | constructor; [exact Ht | constructor]].
Qed.

Lemma unique_positive_ids_remove l1 x l2 :
  unique_positive_ids (l1 ++ x :: l2) -> unique_positive_ids (l1 ++ l2).
Proof.
  intros [Hn Hp]. split.
  - rewrite map_app in *. cbn [map] in Hn. eapply NoDup_remove_1; exact Hn.
  - apply Forall_app in Hp as [H1 H2]. apply Forall_app. split; [exact H1|].
    eapply Forall_inv_tail; exact H2.
Qed.

Lemma put_todo_effect w todos p body :
  stored w todos ->
  exists resp w' todos',
    put_todo p body w = Ret resp w' /\ stored w' todos' /\ map id todos' = map id todos.
Proof.
  intros Hs.
  destruct (findIndex (id_is (parseInt p)) todos) as [i|] eqn:Hi.
  - destruct (findIndex_some _ _ _ Hi) as (l1 & old & l2 & -> & _ & Ho & Hn).
    rewrite (put_todo_found w l1 old l2 p body Hs Ho Hn).
    destruct (truthy (b_title body) && negb (is_string (b_title body)));
      [|destruct (write_fault w) eqn:Hw].
    1, 2: eexists _, w, _; split; [reflexivity|]; split; [exact Hs | reflexivity].
    eexists _, _, (l1 ++ shallow_merge old body :: l2). split; [reflexivity|]. split.
    { apply stored_saved. eapply stored_read_fault; eassumption. }
    rewrite !map_app. reflexivity.
  - rewrite (put_todo_missing w todos p body Hs) by (apply findIndex_none_inv; exact Hi).
    eexists _, w, _; split; [reflexivity|]; split; [exact Hs | reflexivity].
Qed.

Lemma handle_effect now req w todos :
  stored w todos ->
  exists resp w' todos',
    handle now req w = Ret resp w' /\ stored w' todos' /\ effect todos todos'.
Proof.
  intros Hs.
  pose proof (stored_read_fault w todos Hs) as Hr.
  assert (Hsame : effect todos todos) by (apply SameIds; reflexivity).
  assert (Hstay : forall resp, exists (r : response) (w' : World) (todos' : list Todo),
            Ret resp w = Ret r w' /\ stored w' todos' /\ effect todos todos').
  { intros resp. exists resp, w, todos. auto. }
  destruct req as [|p|body|p body|p]; cbn [handle].
  - rewrite (get_todos_stored w todos Hs). apply Hstay.
  - rewrite (get_todo_stored w todos p Hs). apply Hstay.
  - rewrite (post_todo_stored now w todos body Hs).
    destruct (negb (truthy (b_title body)) || negb (is_string (b_title body)));
      [apply Hstay|].
    destruct (write_fault w); [apply Hstay|].
    eexists _, _, (todos ++ [new_todo now todos body]).
    split; [reflexivity|]. split; [apply stored_saved, Hr|].
    apply Pushed. reflexivity.
  - destruct (put_todo_effect w todos p body Hs) as (resp & w' & todos' & Hp & Hs' & Hid).
    exists resp, w', todos'. split; [exact Hp|]. split; [exact Hs'|].
    apply SameIds, Hid.
  - destruct (findIndex (id_is (parseInt p)) todos) as [i|] eqn:Hi.
    + destruct (findIndex_some _ _ _ Hi) as (l1 & x & l2 & E & _ & Hx & Hn).
      subst todos.
      rewrite (delete_todo_found w l1 x l2 p Hs Hx Hn).
      destruct (write_fault w); [apply Hstay|].
      eexists _, _, (l1 ++ l2). split; [reflexivity|]. split; [apply stored_saved, Hr|].
      eapply Removed. reflexivity.
    + rewrite (delete_todo_missing w todos p Hs) by (apply findIndex_none_inv; exact Hi).
      apply Hstay.
Qed.

Lemma effect_unique_positive_ids todos todos' :
  effect todos todos' -> safe_ids todos ->
  unique_positive_ids todos -> unique_positive_ids todos'.
Proof.
  intros [l E | t E | l1 x l2 E] Hsafe Hinv.
  - eapply unique_positive_ids_map; eassumption.
  - apply unique_positive_ids_push; [exact Hinv | |].
    + rewrite E. apply next_id_positive; [exact Hsafe | apply Hinv].
    + intros u Hu. rewrite E. apply next_id_greater; assumption.
  - subst todos. eapply unique_positive_ids_remove; exact Hinv.
Qed.

(** C8 as it is stated does not hold: on the collection that holds the one
    id 2^53, unique and positive, a creation stores a second todo with the
    id 2^53. *)
Lemma post_can_repeat_an_id : ~ unique_positive_ids_always_kept.
Proof.
  intros H.
  destruct (H sample_now (POST_todo (body_with_title "buy milk"))
              (world_of [todo_2_53]) [todo_2_53])
    as (resp & w' & todos' & Hh & Hs & Hnd & _).
  - vm_compute. reflexivity.
  - reflexivity.
  - split; repeat constructor. intros [].
  - vm_compute in Hh. injection Hh as _ <-.
    unfold stored in Hs. vm_compute in Hs. injection Hs as <-.
    cbn [map id] in Hnd. inversion Hnd as [|x l Hnotin _]. apply Hnotin. left. reflexivity.
Qed.

(** C8, as amended.  Every endpoint, run to completion on a stored
    collection whose ids are unique, positive and safe integers, with a
    file that can be written, leaves a stored collection whose ids are
    unique and positive. *)
Theorem handle_preserves_unique_positive_ids now req w todos :
  stored w todos -> write_fault w = None ->
  safe_ids todos -> unique_positive_ids todos ->
  exists resp w' todos',
    handle now req w = Ret resp w'
    /\ stored w' todos'
    /\ unique_positive_ids todos'.
Proof.
  intros Hs _ Hsafe Hinv.
  destruct (handle_effect now req w todos Hs) as (resp & w' & todos' & Hh & Hs' & He).
  exists resp, w', todos'. split; [exact Hh|]. split; [exact Hs'|].
  eapply effect_unique_positive_ids; eassumption.
Qed.

(* ================================================================= *)
(** ** Loading the store *)

Lemma readTodosFromFile_missing w :
  file w = None -> write_fault w = None ->
  readTodosFromFile w = Ret (JArr []) (saved [] w).
Proof.
  intros Hf Hw. unfold readTodosFromFile, try_catch, bind at 1, fs_readFile.
  rewrite Hf. cbn [has_code_ENOENT].
  rewrite (bind_ret_l _ _ _ _ _ (writeTodosToFile_ok w [] Hw)). reflexivity.
Qed.

Lemma readTodosFromFile_unparsable w content :
  file w = Some content -> read_fault w = None -> JSON_parse content = SyntaxError ->
  readTodosFromFile w = Throw (ReadFailed JsonSyntaxError) w.
Proof.
  intros Hf Hr Hp. unfold readTodosFromFile, try_catch, bind, fs_readFile, json_parse.
  rewrite Hf, Hr, Hp. reflexivity.
Qed.

(** A failed read is answered with 500 by every handler that reads. *)
Lemma handle_read_failure now req w e :
  readTodosFromFile w = Throw e w -> reads_store req = true ->
  handle now req w = Ret (failure 500 (MsgError e)) w.
Proof.
  intros Hread Hreq.
  destruct req as [|p|body|p body|p]; cbn [handle];
    [unfold get_todos | unfold get_todo | unfold post_todo
    | unfold put_todo | unfold delete_todo];
    unfold try_catch;
    try (rewrite (bind_throw_l _ _ _ _ _ Hread); reflexivity).
  cbn [reads_store] in Hreq. apply andb_true_iff in Hreq as [-> ->]. cbn [negb orb].
  rewrite (bind_throw_l _ _ _ _ _ Hread). reflexivity.
Qed.

(** C3. Loading the store: when the file does not exist it is created
    holding the empty JSON array and the empty sequence is returned; when
    it exists and is not JSON the load fails with a read error that
    carries the parser's error, and every handler that reads answers 500
    with it. *)
Theorem readTodosFromFile_spec w :
  (file w = None -> write_fault w = None ->
   readTodosFromFile w
   = Ret (JArr []) {| file := Some (lit "[]"); read_fault := read_fault w;
                      write_fault := write_fault w |}
   /\ todos_of_json (JArr []) = Some [])
  /\ (forall content,
        file w = Some content -> read_fault w = None ->
        JSON_parse content = SyntaxError ->
        readTodosFromFile w = Throw (ReadFailed JsonSyntaxError) w
        /\ forall now req, reads_store req = true ->
             handle now req w
             = Ret {| status := 500; success := false;
                      msg := Some (MsgError (ReadFailed JsonSyntaxError));
                      count := None; data := None |} w).
Proof.
  split.
  - intros Hf Hw. split; [|reflexivity].
    apply (readTodosFromFile_missing w Hf Hw).
  - intros content Hf Hr Hp.
    pose proof (readTodosFromFile_unparsable w content Hf Hr Hp) as Hread.
    split; [exact Hread|].
    intros now req Hreq. apply (handle_read_failure now req w _ Hread Hreq).
Qed.

(** No error escapes a handler. *)
Lemma handle_never_throws now req w e w' : handle now req w <> Throw e w'.
Proof.
  assert (H : forall c : M response, try_catch c on_error w <> Throw e w').
  { intros c. unfold try_catch, on_error, ret. destruct (c w); discriminate. }
  destruct req; apply H.
Qed.

(** After start-up on a writable disk without the file, the empty
    collection is stored. *)
Lemma startup_creates w :
  file w = None -> read_fault w = None -> write_fault w = None ->
  exists w', startup w = Ret tt w' /\ stored w' [].
Proof.
  intros Hf Hr Hw. exists (saved [] w). split.
  - unfold startup. rewrite (bind_ret_l _ _ _ _ _ (readTodosFromFile_missing w Hf Hw)).
    reflexivity.
  - apply stored_saved, Hr.
Qed.

(* ================================================================= *)
(** ** Saving and loading again *)

(** C4. Round trip: saving any sequence of todos and loading it again
    yields the same sequence, with the same ids, titles, flags and
    timestamps in the same order. *)
Theorem store_round_trip w todos :
  read_fault w = None -> write_fault w = None ->
  exists w',
    writeTodosToFile todos w = Ret tt w'
    /\ (j <- readTodosFromFile ;; as_todos j)%async w' = Ret todos w'.
Proof.
  intros Hr Hw. exists (saved todos w). split.
  - apply writeTodosToFile_ok, Hw.
  - pose proof (stored_saved w todos Hr) as Hs.
    destruct (readTodosFromFile_stored _ _ Hs) as (j & Hj & Ht).
    rewrite (bind_ret_l _ _ _ _ _ Hj). unfold as_todos. rewrite Ht. reflexivity.
Qed.

(** From safe ids the new id is at most 2^53. *)
Lemma generateUniqueId_safe todos :
  safe_ids todos ->
  (0 < next_id todos <= MAX_SAFE_INTEGER + 1)%Z
  \/ (- MAX_SAFE_INTEGER < next_id todos <= 0)%Z.
Proof.
  intros Hsafe. destruct (next_id_spec todos Hsafe) as [H0 H1].
  destruct todos as [|t r].
  - left. rewrite H0 by reflexivity. unfold MAX_SAFE_INTEGER. lia.
  - destruct H1 as (m & Hin & _ & ->); [discriminate|].
    apply in_map_iff in Hin as (u & <- & Hu).
    unfold safe_ids in Hsafe. rewrite Forall_forall in Hsafe.
    apply Hsafe, is_safe_integer_abs in Hu.
    unfold MAX_SAFE_INTEGER in *. lia.
Qed.

(* ================================================================= *)
(** ** Worked examples *)

(** The scenario of the specification: two creations on an empty store,
    then the listing. *)
Example scenario_two_creations :
  serve [ (sample_now, POST_todo (body_with_title "buy milk"));
          (sample_now, POST_todo (body_with_title "walk dog"));
          (sample_now, GET_todos) ] no_file
  = let milk := {| id := 1; title := lit "buy milk"; completed := false;
                   createTime := sample_now |} in
    let dog := {| id := 2; title := lit "walk dog"; completed := false;
                  createTime := sample_now |} in
    Some ([ created_response milk; created_response dog;
            {| status := 200; success := true; msg := None;
               count := Some 2%nat; data := Some (Todos [milk; dog]) |} ],
          world_of [milk; dog]).
Proof. vm_compute. reflexivity. Qed.

(** A truthy title that is not a string has no [trim]: the update throws
    and nothing is written. *)
Example put_numeric_title :
  put_todo (lit "12") (JObj [ (k_title, JNum 123); (k_completed, JBool true) ])
    (world_of [todo12])
  = Ret (failure 500 (MsgError TypeError)) (world_of [todo12]).
Proof. vm_compute. reflexivity. Qed.

Example parseInt_samples :
  parseInt (lit "12abc") = Some 12%Z
  /\ parseInt (lit "  -7") = Some (-7)%Z
  /\ parseInt (lit "0x1F") = Some 31%Z
  /\ parseInt (lit "abc") = None
  /\ parseInt (lit "") = None.
Proof. repeat split. Qed.

(** With duplicate ids only the first todo is removed, and the id is still
    found afterwards. *)
Example delete_with_duplicate_ids :
  serve [ (sample_now, DELETE_todo (lit "12")); (sample_now, GET_todo (lit "12")) ]
    (world_of [todo12; todo12])
  = Some ([ deleted_response (Some 12%Z);
            {| status := 200; success := true; msg := None;
               count := None; data := Some (OneTodo todo12) |} ],
          world_of [todo12]).
Proof. vm_compute. reflexivity. Qed.

(* ================================================================= *)
(** ** The theorems at sample inputs *)

Lemma post_todo_creates_witness :
  stored (world_of [todo12]) [todo12]
  /\ write_fault (world_of [todo12]) = None
  /\ exists newTodo,
       post_todo sample_now (body_with_title " buy milk ") (world_of [todo12])
       = Ret (created_response newTodo)
             (saved ([todo12] ++ [newTodo]) (world_of [todo12]))
       /\ id newTodo = 13%Z
       /\ title newTodo = lit "buy milk"
       /\ completed newTodo = false
       /\ createTime newTodo = sample_now.
Proof.
  split; [vm_compute; reflexivity|]. split; [reflexivity|].
  destruct (post_todo_creates sample_now (world_of [todo12]) [todo12]
              (body_with_title " buy milk ") (lit " buy milk "))
    as (n & Hp & _ & _ & Hid & _ & Ht & Hc & _ & Hn);
    [vm_compute; reflexivity | reflexivity | repeat constructor | reflexivity
    | discriminate |].
  exists n. split; [exact Hp|]. split.
  - destruct Hid as (m & Hm & _ & ->); [discriminate|].
    destruct Hm as [<-|[]]. reflexivity.
  - split; [exact Ht|]. split; [apply Hc; reflexivity | exact Hn].
Defined.


Lemma readTodosFromFile_spec_witness :
  (readTodosFromFile no_file = Ret (JArr []) (world_of []))
  /\ (readTodosFromFile broken_file = Throw (ReadFailed JsonSyntaxError) broken_file
      /\ get_todos broken_file
         = Ret (failure 500 (MsgError (ReadFailed JsonSyntaxError))) broken_file).
Proof.
  split.
  - apply (proj1 (readTodosFromFile_spec no_file)); reflexivity.
  - destruct (proj2 (readTodosFromFile_spec broken_file) (lit "[{oops"))
      as [Hread Hhandle]; [reflexivity | reflexivity | vm_compute; reflexivity |].
    split; [exact Hread|].
    exact (Hhandle sample_now GET_todos eq_refl).
Defined.

Lemma store_round_trip_witness :
  exists w',
    writeTodosToFile [todo12] no_file = Ret tt w'
    /\ (j <- readTodosFromFile ;; as_todos j) w' = Ret [todo12] w'.
Proof. apply (store_round_trip no_file [todo12]); reflexivity. Defined.

Lemma post_todo_rejects_witness :
  post_todo sample_now (JObj [ (k_title, JNum 123) ]) (world_of [todo12])
  = Ret (failure 400 MsgTitleRequired) (world_of [todo12])
  /\ post_todo sample_now (JObj []) no_file
     = Ret (failure 400 MsgTitleRequired) no_file.
Proof. split; apply post_todo_rejects; reflexivity. Defined.


Lemma unparsable_id_misses_witness :
  get_todo (lit "abc") (world_of [todo12])
  = Ret (failure 404 (MsgNotFound None)) (world_of [todo12])
  /\ put_todo (lit "abc") body_not_completed (world_of [todo12])
     = Ret (failure 404 (MsgUpdateMissing None)) (world_of [todo12])
  /\ delete_todo (lit "abc") (world_of [todo12])
     = Ret (failure 404 (MsgDeleteMissing None)) (world_of [todo12]).
Proof.
  apply (unparsable_id_misses (world_of [todo12]) [todo12]);
    [reflexivity | vm_compute; reflexivity].
Defined.

Lemma handle_preserves_unique_positive_ids_witness :
  exists resp w' todos',
    handle sample_now (POST_todo (body_with_title "water plants")) (world_of [todo12])
    = Ret resp w'
    /\ stored w' todos'
    /\ unique_positive_ids todos'.
Proof.
  apply (handle_preserves_unique_positive_ids _ _ _ [todo12]).
  - vm_compute. reflexivity.
  - reflexivity.
  - repeat constructor.
  - split.
    + repeat constructor. intros [].
    + repeat constructor.
Defined.


Lemma post_todo_blank_title_witness :
  exists newTodo,
    post_todo sample_now (body_with_title " ") (world_of [])
    = Ret {| status := 201; success := true; msg := Some MsgCreated;
             count := None; data := Some (OneTodo newTodo) |}
          (saved ([] ++ [newTodo]) (world_of []))
    /\ stored (saved ([] ++ [newTodo]) (world_of [])) ([] ++ [newTodo])
    /\ title newTodo = [].
Proof.
  apply (post_todo_blank_title sample_now (world_of []) [] (body_with_title " ") (lit " "));
    [vm_compute; reflexivity | reflexivity | reflexivity | discriminate | reflexivity].
Defined.

(* ################################################################# *)
(** * Further properties *)

(* ================================================================= *)
(** ** Loading in every state of the disk *)

Lemma readTodosFromFile_existing w content :
  file w = Some content ->
  readTodosFromFile w
  = match read_fault w with
    | Some f => Throw (ReadFailed (FsError (Fault f))) w
    | None =>
        match JSON_parse content with
        | Value j => Ret j w
        | SyntaxError => Throw (ReadFailed JsonSyntaxError) w
        | Unmodelled => Stuck
        end
    end.
Proof.
  intros Hf. unfold readTodosFromFile, try_catch, bind, fs_readFile, json_parse.
  rewrite Hf. destruct (read_fault w); [reflexivity|].
  destruct (JSON_parse content); reflexivity.
Qed.

Lemma readTodosFromFile_absent w :
  file w = None ->
  readTodosFromFile w
  = match write_fault w with
    | Some f => Throw (WriteFailed (FsError (Fault f))) w
    | None => Ret (JArr []) (saved [] w)
    end.
Proof.
  intros Hf. destruct (write_fault w) as [f|] eqn:Hw.
  - unfold readTodosFromFile, try_catch, bind at 1, fs_readFile.
    rewrite Hf. cbn [has_code_ENOENT].
    rewrite (bind_throw_l _ _ _ _ _ (writeTodosToFile_fault w [] f Hw)). reflexivity.
  - apply readTodosFromFile_missing; assumption.
Qed.

(** X4. When the data file exists but cannot be read, [readTodosFromFile]
    throws the read error wrapping the fault, does not touch the file, and
    every handler answers 500 with that error. *)
Theorem read_fault_is_reported w content f :
  file w = Some content -> read_fault w = Some f ->
  readTodosFromFile w = Throw (ReadFailed (FsError (Fault f))) w
  /\ forall now req, reads_store req = true ->
       handle now req w
       = Ret (failure 500 (MsgError (ReadFailed (FsError (Fault f))))) w.
Proof.
  intros Hf Hr.
  assert (Hread : readTodosFromFile w = Throw (ReadFailed (FsError (Fault f))) w).
  { rewrite (readTodosFromFile_existing w content Hf), Hr. reflexivity. }
  split; [exact Hread|].
  intros now req Hreq. apply (handle_read_failure now req w _ Hread Hreq).
Qed.

(** X5. When the data file is missing and cannot be created,
    [readTodosFromFile] fails with the error of [writeTodosToFile] (not
    with a read error), and every handler answers 500 with that error. *)
Theorem missing_file_not_creatable w f :
  file w = None -> write_fault w = Some f ->
  readTodosFromFile w = Throw (WriteFailed (FsError (Fault f))) w
  /\ forall now req, reads_store req = true ->
       handle now req w
       = Ret (failure 500 (MsgError (WriteFailed (FsError (Fault f))))) w.
Proof.
  intros Hf Hw.
  assert (Hread : readTodosFromFile w = Throw (WriteFailed (FsError (Fault f))) w).
  { rewrite (readTodosFromFile_absent w Hf), Hw. reflexivity. }
  split; [exact Hread|].
  intros now req Hreq. apply (handle_read_failure now req w _ Hread Hreq).
Qed.

(** X3. When the data file is missing and the disk works, GET /todo answers
    200 with count 0 and an empty list and GET /todo/:id answers 404, and
    either request creates the file holding the empty array. *)
Theorem get_on_missing_file w p :
  file w = None -> read_fault w = None -> write_fault w = None ->
  get_todos w
  = Ret {| status := 200; success := true; msg := None;
           count := Some 0%nat; data := Some (Todos []) |} (saved [] w)
  /\ get_todo p w = Ret (failure 404 (MsgNotFound (parseInt p))) (saved [] w)
  /\ file (saved [] w) = Some (lit "[]")
  /\ stored (saved [] w) [].
Proof.
  intros Hf Hr Hw.
  pose proof (readTodosFromFile_missing w Hf Hw) as Hread.
  split; [|split; [|split]].
  - unfold get_todos, try_catch. rewrite (bind_ret_l _ _ _ _ _ Hread). reflexivity.
  - unfold get_todo, try_catch. rewrite (bind_ret_l _ _ _ _ _ Hread). reflexivity.
  - reflexivity.
  - apply stored_saved, Hr.
Qed.

(** X20. A valid POST on a missing data file creates the file; the created todo
    is the only one stored, has id 1, the trimmed title and the time of
    the request. *)
Theorem post_on_missing_file now w body t :
  file w = None -> read_fault w = None -> write_fault w = None ->
  b_title body = Some (JStr t) -> t <> [] ->
  exists newTodo,
    post_todo now body w = Ret (created_response newTodo) (saved [newTodo] w)
    /\ stored (saved [newTodo] w) [newTodo]
    /\ id newTodo = 1%Z
    /\ title newTodo = trim t
    /\ createTime newTodo = now.
Proof.
  intros Hf Hr Hw Ht Hne.
  pose proof (readTodosFromFile_missing w Hf Hw) as Hread.
  pose proof (stored_saved w [] Hr) as Hs.
  exists (new_todo now [] body). split; [|split; [|split; [|split]]].
  - unfold post_todo, try_catch. rewrite Ht.
    assert (Hv : negb (truthy (Some (JStr t))) || negb (is_string (Some (JStr t))) = false).
    { destruct t; [contradiction | reflexivity]. }
    rewrite Hv. rewrite (bind_ret_l _ _ _ _ _ Hread). cbn [as_todos todos_of_json todos_of_elements].
    unfold bind at 1. unfold ret at 1.
    rewrite (bind_ret_l _ _ _ _ _ (generateUniqueId_stored _ _ Hs)).
    cbn [call_trim]. unfold bind at 1. unfold ret at 1.
    assert (Hsw : write_fault (saved [] w) = None) by exact Hw.
    rewrite (bind_ret_l _ _ _ _ _ (writeTodosToFile_ok _ _ Hsw)).
    unfold new_todo, created_response. rewrite Ht.
    destruct (b_completed body); reflexivity.
  - apply (stored_saved w [new_todo now [] body] Hr).
  - reflexivity.
  - unfold new_todo. rewrite Ht. reflexivity.
  - reflexivity.
Qed.

(** X6. When the file cannot be opened for writing (no permission, a read-only
    file system, a directory in its place), a valid POST, a PUT of a
    stored id and a DELETE of a stored id answer 500 with the write error
    and leave the world as it was: nothing is created, changed or
    removed. *)
Theorem write_failure_changes_nothing now w todos f :
  stored w todos -> write_fault w = Some f -> refused_at_open f = true ->
  (forall body, truthy (b_title body) && is_string (b_title body) = true ->
     post_todo now body w
     = Ret (failure 500 (MsgError (WriteFailed (FsError (Fault f))))) w)
  /\ (forall p body, title_mergeable body = true ->
        (exists t, In t todos /\ id_is (parseInt p) t = true) ->
        put_todo p body w
        = Ret (failure 500 (MsgError (WriteFailed (FsError (Fault f))))) w)
  /\ (forall p, (exists t, In t todos /\ id_is (parseInt p) t = true) ->
        delete_todo p w
        = Ret (failure 500 (MsgError (WriteFailed (FsError (Fault f))))) w).
Proof.
  intros Hs Hw _. split; [|split].
  - intros body Hv. rewrite (post_todo_stored now w todos body Hs), Hw.
    apply andb_true_iff in Hv as [-> ->]. reflexivity.
  - intros p body Hm (t & Ht & Hid).
    destruct (findIndex (id_is (parseInt p)) todos) as [i|] eqn:Hi.
    + destruct (findIndex_some _ _ _ Hi) as (l1 & old & l2 & -> & _ & Ho & Hn).
      rewrite (put_todo_found w l1 old l2 p body Hs Ho Hn), Hw.
      unfold title_mergeable in Hm.
      destruct (is_string (b_title body)), (truthy (b_title body));
        try reflexivity; discriminate.
    + rewrite (findIndex_none_inv _ _ Hi t Ht) in Hid. discriminate.
  - intros p (t & Ht & Hid).
    destruct (findIndex (id_is (parseInt p)) todos) as [i|] eqn:Hi.
    + destruct (findIndex_some _ _ _ Hi) as (l1 & x & l2 & E & _ & Hx & Hn). subst todos.
      rewrite (delete_todo_found w l1 x l2 p Hs Hx Hn), Hw. reflexivity.
    + rewrite (findIndex_none_inv _ _ Hi t Ht) in Hid. discriminate.
Qed.

(** X19. The start-up check does nothing when the file holds a collection,
    creates the file with the empty array when it is missing, and fails
    with the read error when the file is not JSON and with the write error
    when the file is missing and cannot be created. *)
Theorem startup_cases w :
  (forall todos, stored w todos -> startup w = Ret tt w)
  /\ (file w = None -> write_fault w = None ->
      startup w = Ret tt (saved [] w))
  /\ (forall content, file w = Some content -> read_fault w = None ->
        JSON_parse content = SyntaxError ->
        startup w = Throw (ReadFailed JsonSyntaxError) w)
  /\ (forall f, file w = None -> write_fault w = Some f ->
        startup w = Throw (WriteFailed (FsError (Fault f))) w).
Proof.
  unfold startup. split; [|split; [|split]].
  - intros todos Hs. destruct (readTodosFromFile_stored w todos Hs) as (j & Hj & _).
    rewrite (bind_ret_l _ _ _ _ _ Hj). reflexivity.
  - intros Hf Hw. rewrite (bind_ret_l _ _ _ _ _ (readTodosFromFile_missing w Hf Hw)).
    reflexivity.
  - intros content Hf Hr Hp.
    apply bind_throw_l. rewrite (readTodosFromFile_existing w content Hf), Hr, Hp. reflexivity.
  - intros f Hf Hw.
    apply bind_throw_l. rewrite (readTodosFromFile_absent w Hf), Hw. reflexivity.
Qed.
(* ================================================================= *)
(** ** One request on a stored collection *)

Lemma handle_step now req w todos :
  stored w todos ->
  exists resp w' todos',
    handle now req w = Ret resp w' /\ stored w' todos'
    /\ step w todos req resp w' todos'.
Proof.
  intros Hs.
  pose proof (stored_read_fault w todos Hs) as Hr.
  assert (Hfail : forall req m code,
            exists (r : response) (w' : World) (todos' : list Todo),
              Ret (failure code m) w = Ret r w' /\ stored w' todos'
              /\ step w todos req r w' todos').
  { intros rq m code. exists (failure code m), w, todos.
    split; [reflexivity|]. split; [exact Hs|]. apply StepSame. right. reflexivity. }
  destruct req as [|p|body|p body|p]; cbn [handle].
  - rewrite (get_todos_stored w todos Hs). eexists _, w, todos.
    split; [reflexivity|]. split; [exact Hs|]. apply StepSame. left. reflexivity.
  - rewrite (get_todo_stored w todos p Hs).
    destruct (find (id_is (parseInt p)) todos); [|apply Hfail].
    eexists _, w, todos.
    split; [reflexivity|]. split; [exact Hs|]. apply StepSame. left. reflexivity.
  - rewrite (post_todo_stored now w todos body Hs).
    destruct (negb (truthy (b_title body)) || negb (is_string (b_title body)));
      [apply Hfail|].
    destruct (write_fault w); [apply Hfail|].
    eexists _, _, _. split; [reflexivity|]. split; [apply stored_saved, Hr|].
    apply StepCreate
      with (s := match b_title body with Some (JStr s) => s | _ => [] end);
      [reflexivity|].
    unfold new_todo. cbn [title].
    destruct (b_title body) as [[| | | |s| |]|]; reflexivity.
  - destruct (findIndex (id_is (parseInt p)) todos) as [i|] eqn:Hi.
    + destruct (findIndex_some _ _ _ Hi) as (l1 & old & l2 & E & _ & Ho & Hn). subst todos.
      rewrite (put_todo_found w l1 old l2 p body Hs Ho Hn).
      destruct (truthy (b_title body) && negb (is_string (b_title body)));
        [apply Hfail|].
      destruct (write_fault w); [apply Hfail|].
      eexists _, _, _. split; [reflexivity|]. split; [apply stored_saved, Hr|].
      eapply StepUpdate; try reflexivity.
      unfold shallow_merge. cbn [title].
      destruct (b_title body) as [[| | | |[|c s]| |]|]; eauto.
    + rewrite (put_todo_missing w todos p body Hs) by (apply findIndex_none_inv; exact Hi).
      apply Hfail.
  - destruct (findIndex (id_is (parseInt p)) todos) as [i|] eqn:Hi.
    + destruct (findIndex_some _ _ _ Hi) as (l1 & x & l2 & E & _ & Hx & Hn). subst todos.
      rewrite (delete_todo_found w l1 x l2 p Hs Hx Hn).
      destruct (write_fault w); [apply Hfail|].
      eexists _, _, _. split; [reflexivity|]. split; [apply stored_saved, Hr|].
      eapply StepDelete; reflexivity.
    + rewrite (delete_todo_missing w todos p Hs) by (apply findIndex_none_inv; exact Hi).
      apply Hfail.
Qed.

(** X7. On a stored collection whose file can be written every request is
    answered, and a request that is answered with [success = false], like
    every GET, leaves the world exactly as it was. *)
Theorem failed_request_changes_nothing now req w todos :
  stored w todos -> write_fault w = None ->
  exists resp w',
    handle now req w = Ret resp w'
    /\ (success resp = false -> w' = w)
    /\ (is_get req = true -> w' = w).
Proof.
  intros Hs _.
  destruct (handle_step now req w todos Hs) as (resp & w' & todos' & Hh & _ & Hst).
  exists resp, w'. split; [exact Hh|].
  destruct Hst as [rq r [Hg|Hf]| | |]; split; intros Hx; try reflexivity;
    try discriminate Hx.
Qed.

(** X9. On a stored collection of safe ids whose file can be written, a request
    changes at most one todo: the collection stays as it was, or gains one
    todo at its end whose id is greater than every stored id, or has one
    todo replaced in place by one with the same id and creation time, or
    loses one todo, the order of the others being kept. *)
Theorem request_touches_one_todo now req w todos :
  stored w todos -> write_fault w = None -> safe_ids todos ->
  exists resp w' todos',
    handle now req w = Ret resp w' /\ stored w' todos'
    /\ (todos' = todos
        \/ (exists t, todos' = todos ++ [t]
                      /\ forall u, In u todos -> (id u < id t)%Z)
        \/ (exists l1 x y l2,
              todos = l1 ++ x :: l2 /\ todos' = l1 ++ y :: l2
              /\ id y = id x /\ createTime y = createTime x)
        \/ (exists l1 x l2, todos = l1 ++ x :: l2 /\ todos' = l1 ++ l2)).
Proof.
  intros Hs _ Hsafe.
  destruct (handle_step now req w todos Hs) as (resp & w' & todos' & Hh & Hs' & Hst).
  exists resp, w', todos'. split; [exact Hh|]. split; [exact Hs'|].
  destruct Hst as [rq r _ | body t s Ht _ | p body l1 x y l2 E Hi Hc _ | p l1 x l2 E].
  - left. reflexivity.
  - right. left. exists t. split; [reflexivity|].
    intros u Hu. rewrite Ht. apply next_id_greater; assumption.
  - right. right. left. exists l1, x, y, l2. auto.
  - right. right. right. exists l1, x, l2. auto.
Qed.

(** X10. On a stored collection whose file can be written, the number of stored
    todos grows by one on a successful POST, drops by one on a successful
    DELETE (which needs a non-empty collection) and is unchanged by every
    other request and by every failed one. *)
Theorem request_changes_count now req w todos :
  stored w todos -> write_fault w = None ->
  exists resp w' todos',
    handle now req w = Ret resp w' /\ stored w' todos'
    /\ List.length todos'
       = match req with
         | POST_todo _ =>
             if success resp then S (List.length todos) else List.length todos
         | DELETE_todo _ =>
             if success resp then pred (List.length todos) else List.length todos
         | _ => List.length todos
         end
    /\ (forall p, req = DELETE_todo p -> success resp = true ->
          (0 < List.length todos)%nat).
Proof.
  intros Hs _.
  destruct (handle_step now req w todos Hs) as (resp & w' & todos' & Hh & Hs' & Hst).
  exists resp, w', todos'. split; [exact Hh|]. split; [exact Hs'|].
  destruct Hst as [rq r [Hg|Hf]| body t s _ _ | p body l1 x y l2 E _ _ _ | p l1 x l2 E].
  - destruct rq; try discriminate Hg; (split; [reflexivity | intros; discriminate]).
  - rewrite Hf. destruct rq; split; try reflexivity; intros; try discriminate; congruence.
  - cbn [success created_response]. rewrite length_app. cbn [List.length].
    split; [lia | intros; discriminate].
  - subst todos. rewrite !length_app. cbn [List.length]. split; [reflexivity | intros; discriminate].
  - subst todos. cbn [success deleted_response]. rewrite !length_app. cbn [List.length].
    split; [lia | intros; lia].
Qed.

(** X1. GET /todo/:id answers 200 with the first stored todo whose id is the
    number read from the path parameter and leaves the world as it was;
    when no stored todo has that id it answers 404 with a message naming
    the id.  The number is a safe integer, which [parseInt] reads
    unrounded. *)
Theorem get_todo_finds_first w l1 t l2 todos p n :
  parseInt p = Some n -> is_safe_integer n = true ->
  (stored w (l1 ++ t :: l2) -> id t = n -> (forall u, In u l1 -> id u <> n) ->
   get_todo p w
   = Ret {| status := 200; success := true; msg := None;
            count := None; data := Some (OneTodo t) |} w)
  /\ (stored w todos -> ~ In n (map id todos) ->
      get_todo p w = Ret (failure 404 (MsgNotFound (Some n))) w).
Proof.
  intros Hp _. split.
  - intros Hs Ht Hn. rewrite (get_todo_stored w _ p Hs), Hp.
    rewrite find_split; [reflexivity | |].
    + cbn [id_is]. apply Z.eqb_eq, Ht.
    + intros u Hu. cbn [id_is]. apply Z.eqb_neq, Hn, Hu.
  - intros Hs Hn. rewrite (get_todo_stored w _ p Hs), Hp.
    rewrite find_none; [reflexivity|].
    intros u Hu. cbn [id_is]. apply Z.eqb_neq. intros E. apply Hn.
    rewrite <- E. apply in_map, Hu.
Qed.

(** The covered states of the file, one by one. *)
Lemma covered_cases w :
  covered w = true ->
  (exists todos, stored w todos)
  \/ (exists e, readTodosFromFile w = Throw e w /\ collection w = None)
  \/ (file w = None /\ write_fault w = None).
Proof.
  unfold covered. intros Hc.
  destruct (file w) as [content|] eqn:Hf.
  - pose proof (readTodosFromFile_existing w content Hf) as Hread.
    assert (Hcol : read_fault w <> None \/ JSON_parse content = SyntaxError ->
                   collection w = None).
    { unfold collection. rewrite Hf. intros [H| ->]; [|destruct (read_fault w); reflexivity].
      destruct (read_fault w); [reflexivity | contradiction]. }
    destruct (read_fault w) as [f|] eqn:Hr.
    { right. left. eexists. split; [exact Hread | apply Hcol; left; discriminate]. }
    destruct (JSON_parse content) as [j| |] eqn:Hp; [| |discriminate].
    + destruct (todos_of_json j) as [todos|] eqn:Ht; [|discriminate].
      left. exists todos. unfold stored, collection. rewrite Hf, Hr, Hp. exact Ht.
    + right. left. eexists. split; [exact Hread | apply Hcol; right; reflexivity].
  - pose proof (readTodosFromFile_absent w Hf) as Hread.
    destruct (write_fault w) as [f|] eqn:Hw.
    + right. left. eexists. split; [exact Hread|]. unfold collection. rewrite Hf. reflexivity.
    + right. right. split; reflexivity.
Qed.

Lemma post_todo_invalid now body w :
  reads_store (POST_todo body) = false ->
  post_todo now body w = Ret (failure 400 MsgTitleRequired) w.
Proof.
  cbn [reads_store]. intros H. unfold post_todo, try_catch.
  destruct (truthy (b_title body)), (is_string (b_title body));
    try discriminate H; reflexivity.
Qed.

Lemma generateUniqueId_created w :
  generateUniqueId (saved [] w) = Ret 1%Z (saved [] w)
  \/ exists e, generateUniqueId (saved [] w) = Throw e (saved [] w).
Proof.
  pose proof (readTodosFromFile_existing (saved [] w) _ eq_refl) as Hread.
  cbn [read_fault saved] in Hread. unfold generateUniqueId.
  destruct (read_fault w).
  - right. eexists. apply bind_throw_l, Hread.
  - left. rewrite JSON_parse_stringify in Hread.
    rewrite (bind_ret_l _ _ _ _ _ Hread). reflexivity.
Qed.

(** On a covered world every request is answered. *)
Lemma handle_answers now req w :
  covered w = true -> exists resp w', handle now req w = Ret resp w'.
Proof.
  intros Hc.
  destruct (reads_store req) eqn:Hreq.
  2:{ destruct req as [| |body| |]; try discriminate Hreq. cbn [handle].
      rewrite (post_todo_invalid now body w Hreq). eauto. }
  destruct (covered_cases w Hc) as [(todos & Hs) | [(e & He & _) | [Hf Hw]]].
  - destruct (handle_step now req w todos Hs) as (resp & w' & _ & Hh & _). eauto.
  - rewrite (handle_read_failure now req w e He Hreq). eauto.
  - pose proof (readTodosFromFile_missing w Hf Hw) as Hread.
    destruct req as [|p|body|p body|p]; cbn [handle];
      [unfold get_todos | unfold get_todo | unfold post_todo
      | unfold put_todo | unfold delete_todo]; unfold try_catch.
    1, 2, 4, 5: rewrite (bind_ret_l _ _ _ _ _ Hread); unfold bind, as_todos, ret;
      cbn [todos_of_json todos_of_elements find findIndex List.length];
      eexists _, _; reflexivity.
    cbn [reads_store] in Hreq. apply andb_true_iff in Hreq as [Ht Hstr].
    rewrite Ht, Hstr. cbn [negb orb].
    rewrite (bind_ret_l _ _ _ _ _ Hread).
    unfold bind at 1. cbn [as_todos todos_of_json todos_of_elements]. unfold ret at 1.
    destruct (generateUniqueId_created w) as [Hg | (e & Hg)].
    + rewrite (bind_ret_l _ _ _ _ _ Hg).
      destruct (b_title body) as [[| | | |s| |]|]; try discriminate Hstr.
      cbn [call_trim]. unfold bind at 1. unfold ret at 1.
      assert (Hw' : write_fault (saved [] w) = None) by exact Hw.
      rewrite (bind_ret_l _ _ _ _ _ (writeTodosToFile_ok _ _ Hw')).
      eexists _, _. reflexivity.
    + rewrite (bind_throw_l _ _ _ _ _ Hg). eexists _, _. reflexivity.
Qed.

(** X2. When the data file exists and is in one of the covered states --
    unreadable, not JSON, or holding a collection of todos -- GET /todo and
    GET /todo/:id are answered and leave the world exactly as it was;
    GET /todo answers 200 or 500 and GET /todo/:id 200, 404 or 500, where
    500 is the answer exactly when the file holds no collection that can
    be read. *)
Theorem get_never_writes w content p :
  file w = Some content -> covered w = true ->
  (exists r, get_todos w = Ret r w
             /\ (status r = 200 \/ status r = 500)%nat
             /\ (status r = 500%nat <-> collection w = None))
  /\ (exists r, get_todo p w = Ret r w
                /\ (status r = 200 \/ status r = 404 \/ status r = 500)%nat
                /\ (status r = 500%nat <-> collection w = None)).
Proof.
  intros Hf Hc.
  destruct (covered_cases w Hc) as [(todos & Hs) | [(e & He & Hcol) | [Hnone _]]].
  - rewrite (get_todos_stored w todos Hs), (get_todo_stored w todos p Hs).
    unfold stored in Hs. split.
    + eexists. split; [reflexivity|]. split; [left; reflexivity|].
      cbn [status]. rewrite Hs. split; discriminate.
    + destruct (find (id_is (parseInt p)) todos);
        (eexists; split; [reflexivity|]; split;
         [cbn [status failure]; auto | cbn [status failure]; rewrite Hs; split; discriminate]).
  - pose proof (handle_read_failure sample_now GET_todos w e He eq_refl) as H1.
    pose proof (handle_read_failure sample_now (GET_todo p) w e He eq_refl) as H2.
    cbn [handle] in H1, H2. rewrite H1, H2.
    split; (eexists; split; [reflexivity|]; split;
            [cbn [status failure]; auto | cbn [status failure]; split; auto]).
  - rewrite Hnone in Hf. discriminate Hf.
Qed.

(** X11. On a stored collection with a writable file POST /todo answers 400 or
    201, and 201 exactly when the title of the body is a non-empty
    string. *)
Theorem post_todo_validates now w todos body :
  stored w todos -> write_fault w = None ->
  exists resp w',
    post_todo now body w = Ret resp w'
    /\ (status resp = 400%nat \/ status resp = 201%nat)
    /\ (status resp = 201%nat <->
        exists c s, b_title body = Some (JStr (c :: s))).
Proof.
  intros Hs Hw. rewrite (post_todo_stored now w todos body Hs), Hw.
  destruct (b_title body) as [[| | | |[|c s]| |]|]; cbn [truthy is_string negb orb];
    try (destruct b); try (destruct (n =? 0)%Z); cbn [negb orb];
    eexists _, _; (split; [reflexivity|]);
    (split; [(left; reflexivity) || (right; reflexivity)|]);
    (split; [intros H; try discriminate H; eauto | intros (c' & s' & H); try discriminate H; reflexivity]).
Qed.

(** The shape of whatever a handler answers. *)
Lemma handle_response_shape now req w :
  match handle now req w with
  | Ret resp _ => well_formed_response resp = true
  | Throw _ _ => False
  | Stuck => True
  end.
Proof.
  destruct req as [|p|body|p body|p]; cbn [handle];
    [unfold get_todos | unfold get_todo | unfold post_todo
    | unfold put_todo | unfold delete_todo];
    unfold try_catch, on_error, bind, as_todos, ret, stuck;
    repeat match goal with
    | |- context [match todos_of_json ?j with _ => _ end] => destruct (todos_of_json j)
    | |- context [match find ?f ?l with _ => _ end] => destruct (find f l)
    | |- context [match findIndex ?f ?l with _ => _ end] => destruct (findIndex f l)
    | |- context [match nth_error ?l ?i with _ => _ end] => destruct (nth_error l i)
    | |- context [match b_completed ?b with _ => _ end] => destruct (b_completed b)
    | |- context [if ?b then _ else _] => destruct b
    | |- context [readTodosFromFile ?w'] => destruct (readTodosFromFile w') as [? ?|? ?|]
    | |- context [generateUniqueId ?w'] => destruct (generateUniqueId w') as [? ?|? ?|]
    | |- context [writeTodosToFile ?l ?w'] => destruct (writeTodosToFile l w') as [? ?|? ?|]
    | |- context [call_trim ?t ?w'] => destruct (call_trim t w') as [? ?|? ?|]
    end;
    try reflexivity; try exact I.
Qed.

(** X8. Whatever the covered state of the data file (missing, unreadable, not
    JSON, or holding a collection of todos), every request is answered: no
    exception escapes a handler, and the response has one of two shapes,
    status 200 or 201 with [success = true] and data, or status 400, 404
    or 500 with [success = false], a message and no data. *)
Theorem handle_answers_well_formed now req w :
  covered w = true ->
  exists resp w',
    handle now req w = Ret resp w' /\ well_formed_response resp = true.
Proof.
  intros Hc. destruct (handle_answers now req w Hc) as (resp & w' & Hh).
  exists resp, w'. split; [exact Hh|].
  pose proof (handle_response_shape now req w) as H. rewrite Hh in H. exact H.
Qed.

(* ================================================================= *)
(** ** An id that was printed is read back by [parseInt] *)

Lemma digit_value_10_not_digit c : is_digit c = false -> digit_value 10 c = None.
Proof.
  unfold is_digit, digit_value. intros H. rewrite H.
  destruct ((97 <=? c) && (c <=? 122)) eqn:Ha.
  - assert ((c - 87 <? 10) = false) as -> by blia. reflexivity.
  - destruct ((65 <=? c) && (c <=? 90)) eqn:Hb; [|reflexivity].
    assert ((c - 55 <? 10) = false) as -> by blia. reflexivity.
Qed.

Lemma digits_prefix_stop a rest :
  starts_digit rest = false -> digits_prefix 10 (Some a) rest = Some a.
Proof.
  destruct rest as [|c r]; [reflexivity|]. cbn [starts_digit digits_prefix].
  intros H. rewrite (digit_value_10_not_digit c H). reflexivity.
Qed.

Lemma digits_prefix_acc u : forall acc rest,
  starts_digit rest = false ->
  digits_prefix 10 (Some (Npos acc)) (uint_text u ++ rest)
  = Some (Npos (Pos.of_uint_acc u acc)).
Proof.
  induction u; intros acc rest Hr; cbn [uint_text app];
    [apply digits_prefix_stop, Hr | ..];
    cbn [digits_prefix]; 
    match goal with
    | |- context [digit_value 10 ?c] =>
        let v := eval vm_compute in (digit_value 10 c) in
        change (digit_value 10 c) with v
    end; cbv iota; cbn [Pos.of_uint_acc];
    match goal with
    | |- digits_prefix 10 (Some ?a) _ = Some (Npos (Pos.of_uint_acc _ ?b)) =>
        replace a with (Npos b) by lia
    end; apply IHu, Hr.
Qed.

Lemma digits_prefix_zero u : forall rest,
  starts_digit rest = false ->
  digits_prefix 10 (Some 0) (uint_text u ++ rest) = Some (N.of_uint u).
Proof.
  induction u; intros rest Hr; cbn [uint_text app];
    [apply digits_prefix_stop, Hr | ..];
    cbn [digits_prefix];
    match goal with
    | |- context [digit_value 10 ?c] =>
        let v := eval vm_compute in (digit_value 10 c) in
        change (digit_value 10 c) with v
    end; cbv iota; cbn [N.of_uint Pos.of_uint N.mul N.add];
    [ apply IHu, Hr | apply digits_prefix_acc, Hr .. ].
Qed.

Lemma digits_prefix_start c r :
  is_digit c = true ->
  digits_prefix 10 None (c :: r) = digits_prefix 10 (Some 0) (c :: r).
Proof.
  intros H. cbn [digits_prefix].
  assert (Hv : digit_value 10 c = Some (c - 48)).
  { unfold digit_value. unfold is_digit in H. rewrite H.
    assert ((c - 48 <? 10) = true) as -> by blia. reflexivity. }
  rewrite Hv. reflexivity.
Qed.

Lemma parseInt_digits p rest :
  starts_digit rest = false ->
  digits_prefix 10 None (uint_text (Pos.to_uint p) ++ rest) = Some (Npos p)
  /\ starts_with 48 (uint_text (Pos.to_uint p) ++ rest) = false
  /\ starts_with 45 (uint_text (Pos.to_uint p) ++ rest) = false
  /\ starts_with 43 (uint_text (Pos.to_uint p) ++ rest) = false
  /\ trimStart (uint_text (Pos.to_uint p) ++ rest) = uint_text (Pos.to_uint p) ++ rest.
Proof.
  intros Hr.
  pose proof (digits_prefix_zero (Pos.to_uint p) rest Hr) as Hz.
  change (N.of_uint (Pos.to_uint p)) with (N.of_uint (N.to_uint (Npos p))) in Hz.
  rewrite DecimalN.Unsigned.of_to in Hz.
  destruct (uint_text_head p) as (c & r & E & Hc & H45).
  pose proof (to_uint_no_leading_zero p) as Hnz.
  rewrite E in *. cbn [app] in *.
  rewrite (digits_prefix_start c _ Hc). split; [exact Hz|].
  cbn [starts_with trimStart].
  assert (Hsp : is_space c = false) by (unfold is_space; unfold is_digit in Hc; blia).
  rewrite Hsp.
  assert (H48 : (c =? 48) = false).
  { apply N.eqb_neq. intros ->. destruct (Pos.to_uint p) eqn:Eu; cbn [uint_text] in E;
      try discriminate E. eapply Hnz. reflexivity. }
  rewrite H48.
  repeat split; unfold is_digit in Hc; blia.
Qed.

Lemma parseInt_number_text_suffix n rest :
  starts_digit rest = false ->
  (n = 0%Z -> starts_with 120 rest = false /\ starts_with 88 rest = false) ->
  parseInt (number_text n ++ rest) = Some n.
Proof.
  intros Hr Hx. destruct n as [|p|p]; cbn [number_text].
  - destruct (Hx eq_refl) as [H120 H88].
    unfold parseInt. cbn [app trimStart]. change (is_space 48) with false. cbv iota.
    cbn [starts_with]. change (48 =? 45) with false. change (48 =? 43) with false.
    change (48 =? 48) with true. cbn [orb andb tl]. rewrite H120, H88.
    cbn [orb starts_with]. change (48 =? 48) with true. cbn [andb].
    rewrite (digits_prefix_start 48 rest eq_refl).
    change (48 :: rest) with (uint_text (Decimal.D0 Decimal.Nil) ++ rest).
    rewrite (digits_prefix_zero _ rest Hr). reflexivity.
  - destruct (parseInt_digits p rest Hr) as (Hd & H48 & H45 & H43 & Ht).
    unfold parseInt. rewrite Ht, H45, H43. cbn [orb]. rewrite H48. cbn [andb].
    rewrite Hd. reflexivity.
  - destruct (parseInt_digits p rest Hr) as (Hd & H48 & _ & _ & _).
    unfold parseInt. cbn [app trimStart]. change (is_space 45) with false. cbv iota.
    cbn [starts_with]. change (45 =? 45) with true. cbn [orb tl].
    cbn [starts_with] in H48. rewrite H48. cbn [andb]. rewrite Hd. reflexivity.
Qed.

(* ================================================================= *)
(** ** What [trim] leaves *)

Lemma trimStart_spec s :
  exists a, s = a ++ trimStart s /\ forallb is_space a = true
            /\ starts_space (trimStart s) = false.
Proof.
  induction s as [|c r (a & E & Ha & Hs)]; [exists []; auto|].
  cbn [trimStart]. destruct (is_space c) eqn:Hc.
  - exists (c :: a). cbn [app forallb]. rewrite Hc, Ha, <- E. auto.
  - exists []. cbn [starts_space]. auto.
Qed.

Lemma trimStart_clean s : starts_space s = false -> trimStart s = s.
Proof. destruct s as [|c r]; [reflexivity|]. cbn. intros ->. reflexivity. Qed.

Lemma trimEnd_spec s :
  exists b, s = trimEnd s ++ b /\ forallb is_space b = true
            /\ ends_space (trimEnd s) = false.
Proof.
  unfold trimEnd, ends_space.
  destruct (trimStart_spec (rev s)) as (a & E & Ha & Hs).
  exists (rev a). split; [|split].
  - rewrite <- rev_app_distr, <- E, rev_involutive. reflexivity.
  - rewrite forallb_forall in *. intros x Hx. apply Ha, in_rev, Hx.
  - rewrite rev_involutive. exact Hs.
Qed.

Lemma trimEnd_keeps_start s : starts_space s = false -> starts_space (trimEnd s) = false.
Proof.
  intros H. destruct (trimEnd_spec s) as (b & E & _ & _).
  destruct (trimEnd s) as [|c r]; [reflexivity|].
  rewrite E in H. exact H.
Qed.

Lemma trim_spec s :
  exists a b, s = a ++ trim s ++ b
              /\ forallb is_space a = true /\ forallb is_space b = true
              /\ starts_space (trim s) = false /\ ends_space (trim s) = false.
Proof.
  unfold trim.
  destruct (trimStart_spec s) as (a & Ea & Ha & Hs).
  destruct (trimEnd_spec (trimStart s)) as (b & Eb & Hb & He).
  exists a, b. split; [|split; [|split; [|split]]]; auto.
  - rewrite <- Eb. exact Ea.
  - apply trimEnd_keeps_start, Hs.
Qed.

Lemma trim_clean s : starts_space s = false -> ends_space s = false -> trim s = s.
Proof.
  intros Hs He. unfold trim. rewrite (trimStart_clean s Hs).
  unfold trimEnd. unfold ends_space in He. rewrite (trimStart_clean _ He).
  apply rev_involutive.
Qed.

(** X18. The title stored by POST is the submitted title without the white
    space around it: the submitted title is white space, then the stored
    title, then white space, and the stored title neither begins nor ends
    with white space. *)
Theorem post_todo_strips_title now w todos body t :
  stored w todos -> write_fault w = None ->
  b_title body = Some (JStr t) -> t <> [] ->
  exists newTodo w' before after,
    post_todo now body w = Ret (created_response newTodo) w'
    /\ t = before ++ title newTodo ++ after
    /\ forallb is_space before = true /\ forallb is_space after = true
    /\ starts_space (title newTodo) = false
    /\ ends_space (title newTodo) = false.
Proof.
  intros Hs Hw Ht Hne.
  destruct (trim_spec t) as (a & b & E & Ha & Hb & H1 & H2).
  exists (new_todo now todos body), (saved (todos ++ [new_todo now todos body]) w), a, b.
  assert (Htitle : title (new_todo now todos body) = trim t).
  { unfold new_todo. rewrite Ht. reflexivity. }
  rewrite Htitle. split; [|auto].
  rewrite (post_todo_stored now w todos body Hs), Ht, Hw.
  destruct t; [contradiction | reflexivity].
Qed.

(* ================================================================= *)
(** ** Requests in sequence *)

Lemma parseInt_number_text n : parseInt (number_text n) = Some n.
Proof.
  rewrite <- (app_nil_r (number_text n)).
  apply parseInt_number_text_suffix; [reflexivity | intros _; split; reflexivity].
Qed.


Lemma find_last_greater todos t :
  (forall u, In u todos -> (id u < id t)%Z) ->
  forall u, In u todos -> id_is (Some (id t)) u = false.
Proof. intros H u Hu. cbn [id_is]. apply Z.eqb_neq. specialize (H u Hu). lia. Qed.

Lemma id_is_self t : id_is (Some (id t)) t = true.
Proof. cbn [id_is]. apply Z.eqb_refl. Qed.


(** X13. After a successful POST on a collection of safe ids, GET /todo/:id with
    the new id printed in decimal returns the created todo, and GET /todo
    lists the former todos followed by the new one, with the count one
    greater. *)
Theorem created_todo_is_served now w todos body :
  stored w todos -> write_fault w = None -> safe_ids todos ->
  valid_title body = true ->
  exists newTodo w',
    post_todo now body w = Ret (created_response newTodo) w'
    /\ get_todo (number_text (id newTodo)) w'
       = Ret {| status := 200; success := true; msg := None;
                count := None; data := Some (OneTodo newTodo) |} w'
    /\ get_todos w'
       = Ret {| status := 200; success := true; msg := None;
                count := Some (S (List.length todos));
                data := Some (Todos (todos ++ [newTodo])) |} w'.
Proof.
  intros Hs Hw Hsafe Hv.
  pose proof (stored_read_fault w todos Hs) as Hr.
  set (t := new_todo now todos body).
  assert (Hs' : stored (saved (todos ++ [t]) w) (todos ++ [t])) by apply stored_saved, Hr.
  exists t, (saved (todos ++ [t]) w). split; [|split].
  - rewrite (post_todo_stored now w todos body Hs), Hw.
    unfold valid_title in Hv. apply andb_true_iff in Hv as [-> ->]. reflexivity.
  - rewrite (get_todo_stored _ _ _ Hs'), parseInt_number_text.
    rewrite find_split; [reflexivity | apply id_is_self |].
    apply find_last_greater. intros u Hu. apply next_id_greater; assumption.
  - rewrite (get_todos_stored _ _ Hs'), length_app. cbn [List.length].
    rewrite Nat.add_1_r. reflexivity.
Qed.




(** X17. Ids are not remembered: on a collection of safe ids, when the newest
    todo is deleted, the next POST is given the id of the deleted todo
    again. *)
Theorem deleted_newest_id_is_reused now1 now2 w todos body1 body2 :
  stored w todos -> write_fault w = None -> safe_ids todos ->
  valid_title body1 = true -> valid_title body2 = true ->
  exists t1 t2 w1 w2 w3,
    post_todo now1 body1 w = Ret (created_response t1) w1
    /\ delete_todo (number_text (id t1)) w1 = Ret (deleted_response (Some (id t1))) w2
    /\ post_todo now2 body2 w2 = Ret (created_response t2) w3
    /\ id t2 = id t1
    /\ stored w3 (todos ++ [t2]).
Proof.
  intros Hs Hw Hsafe Hv1 Hv2.
  pose proof (stored_read_fault w todos Hs) as Hr.
  set (t1 := new_todo now1 todos body1).
  set (t2 := new_todo now2 todos body2).
  assert (Hs1 : stored (saved (todos ++ [t1]) w) (todos ++ [t1])) by apply stored_saved, Hr.
  assert (Hs2 : stored (saved todos w) todos) by apply stored_saved, Hr.
  exists t1, t2, (saved (todos ++ [t1]) w), (saved todos w), (saved (todos ++ [t2]) w).
  unfold valid_title in Hv1, Hv2.
  apply andb_true_iff in Hv1 as [Hv1 Hv1']. apply andb_true_iff in Hv2 as [Hv2 Hv2'].
  split; [|split; [|split; [|split]]].
  - rewrite (post_todo_stored now1 w todos body1 Hs), Hw, Hv1, Hv1'. reflexivity.
  - rewrite (delete_todo_found _ todos t1 [] _ Hs1).
    + change (write_fault (saved (todos ++ [t1]) w)) with (write_fault w).
      rewrite Hw, parseInt_number_text, app_nil_r. reflexivity.
    + rewrite parseInt_number_text. apply id_is_self.
    + rewrite parseInt_number_text. apply find_last_greater.
      intros u Hu. apply next_id_greater; assumption.
  - rewrite (post_todo_stored now2 _ todos body2 Hs2).
    change (write_fault (saved todos w)) with (write_fault w).
    rewrite Hw, Hv2, Hv2'. reflexivity.
  - reflexivity.
  - apply stored_saved, Hr.
Qed.

(* ================================================================= *)
(** ** What holds of every collection the server reaches *)

(** An invariant indexed by the number of requests served so far. *)
Lemma serve_invariant (I : nat -> list Todo -> Prop) :
  (forall k w todos req resp w' todos',
     step w todos req resp w' todos' -> I k todos -> I (S k) todos') ->
  forall reqs k w todos,
    stored w todos -> I k todos ->
    exists resps w' todos',
      serve reqs w = Some (resps, w')
      /\ List.length resps = List.length reqs
      /\ stored w' todos'
      /\ I (k + List.length reqs)%nat todos'.
Proof.
  intros Hstep. induction reqs as [|[now req] reqs IH]; intros k w todos Hs Hi; cbn [serve].
  - exists [], w, todos. rewrite Nat.add_0_r. auto.
  - destruct (handle_step now req w todos Hs) as (r & w1 & l1 & -> & Hs1 & Hst).
    pose proof (Hstep k _ _ _ _ _ _ Hst Hi) as Hi1.
    destruct (IH (S k) w1 l1 Hs1 Hi1) as (rs & w2 & l2 & -> & Hlen & Hs2 & Hi2).
    exists (r :: rs), w2, l2. cbn [List.length].
    rewrite Nat.add_succ_r. rewrite Hlen. auto.
Qed.

Lemma startup_fresh w : fresh w -> startup w = Ret tt (saved [] w) /\ stored (saved [] w) [].
Proof.
  intros (Hf & Hr & Hw). split.
  - unfold startup. rewrite (bind_ret_l _ _ _ _ _ (readTodosFromFile_missing w Hf Hw)).
    reflexivity.
  - apply stored_saved, Hr.
Qed.

Lemma ids_within_safe k todos :
  (Z.of_nat k <= MAX_SAFE_INTEGER)%Z ->
  Forall (fun t => (1 <= id t <= Z.of_nat k)%Z) todos -> safe_ids todos.
Proof.
  intros Hk H. unfold safe_ids. eapply Forall_impl; [|exact H].
  cbv beta. intros t Ht. apply is_safe_integer_abs. lia.
Qed.

Lemma next_id_upto k todos :
  Forall (fun t => (1 <= id t <= Z.of_nat k)%Z /\ (id t <= MAX_SAFE_INTEGER + 1)%Z) todos ->
  (1 <= next_id todos <= Z.of_nat (S k))%Z /\ (next_id todos <= MAX_SAFE_INTEGER + 1)%Z.
Proof.
  intros H. destruct (next_id_max todos) as [H0 H1].
  destruct todos as [|t r].
  { rewrite H0 by reflexivity. unfold MAX_SAFE_INTEGER. lia. }
  destruct H1 as (m & Hin & _ & ->); [discriminate|].
  apply in_map_iff in Hin as (u & <- & Hu).
  rewrite Forall_forall in H. destruct (H u Hu) as [Hk Hm].
  destruct (Z.eq_dec (id u) (MAX_SAFE_INTEGER + 1)) as [E|E].
  - rewrite E. change (MAX_SAFE_INTEGER + 1)%Z with 9007199254740992%Z.
    rewrite (proj1 Number_add_rounds).
    change 9007199254740992%Z with (MAX_SAFE_INTEGER + 1)%Z. lia.
  - unfold Number_add. rewrite Number_of_Z_exact by lia. lia.
Qed.

Lemma ids_upto_safe k todos :
  (Z.of_nat k <= MAX_SAFE_INTEGER)%Z ->
  Forall (fun t => (1 <= id t <= Z.of_nat k)%Z /\ (id t <= MAX_SAFE_INTEGER + 1)%Z) todos ->
  safe_ids todos.
Proof.
  intros Hk H. unfold safe_ids. eapply Forall_impl; [|exact H].
  cbv beta. intros t Ht. apply is_safe_integer_abs. lia.
Qed.

Lemma step_ids_upto k w todos req resp w' todos' :
  step w todos req resp w' todos' -> ids_upto k todos -> ids_upto (S k) todos'.
Proof.
  intros Hst [Hb Hn].
  assert (Hweak : forall l,
            Forall (fun t => (1 <= id t <= Z.of_nat k)%Z
                             /\ (id t <= MAX_SAFE_INTEGER + 1)%Z) l ->
            Forall (fun t => (1 <= id t <= Z.of_nat (S k))%Z
                             /\ (id t <= MAX_SAFE_INTEGER + 1)%Z) l).
  { intros l Hl. eapply Forall_impl; [|exact Hl]. cbv beta. intros; lia. }
  assert (Hn' : (Z.of_nat (S k) <= MAX_SAFE_INTEGER)%Z -> NoDup (map id todos))
    by (intros; apply Hn; lia).
  destruct Hst as [rq r _ | body t s Ht _ | p body l1 x y l2 E Hi _ _ | p l1 x l2 E].
  - split; [apply Hweak, Hb | exact Hn'].
  - pose proof (next_id_upto k todos Hb) as Hnext. split.
    + apply Forall_app. split; [apply Hweak, Hb|]. repeat constructor; rewrite Ht; lia.
    + intros Hk. rewrite map_app. cbn [map].
      apply NoDup_app; [apply Hn', Hk | repeat constructor; intros [] |].
      intros a Ha [<-|[]]. apply in_map_iff in Ha as (u & Hu & Hin).
      assert (Hsafe : safe_ids todos) by (apply (ids_upto_safe k); [lia | exact Hb]).
      pose proof (next_id_greater todos u Hsafe Hin). lia.
  - subst todos. split.
    + apply Hweak. apply Forall_app in Hb as [H1 H2]. apply Forall_app. split; [exact H1|].
      inversion H2; subst. constructor; [rewrite Hi; assumption | assumption].
    + intros Hk. specialize (Hn' Hk). rewrite map_app in *. cbn [map] in *.
      rewrite Hi. exact Hn'.
  - subst todos. split.
    + apply Hweak. apply Forall_app in Hb as [H1 H2]. apply Forall_app. split; [exact H1|].
      eapply Forall_inv_tail; exact H2.
    + intros Hk. specialize (Hn' Hk). rewrite map_app in *. cbn [map] in Hn'.
      eapply NoDup_remove_1; exact Hn'.
Qed.

(** X21. Starting with no data file, after the start-up check and any sequence
    of requests every request has been answered and each stored id lies
    between 1 and the number of requests served; the stored ids are
    pairwise different as long as that number is a safe integer.  (A
    Number cannot count further: the successor of 2^53 is 2^53.) *)
Theorem reachable_ids_unique_and_small w reqs :
  fresh w ->
  exists w0 resps w' todos,
    startup w = Ret tt w0
    /\ serve reqs w0 = Some (resps, w')
    /\ List.length resps = List.length reqs
    /\ stored w' todos
    /\ ((Z.of_nat (List.length reqs) <= MAX_SAFE_INTEGER)%Z -> NoDup (map id todos))
    /\ Forall (fun t => (1 <= id t <= Z.of_nat (List.length reqs))%Z) todos.
Proof.
  intros Hfresh. destruct (startup_fresh w Hfresh) as [Hstart Hs0].
  destruct (serve_invariant ids_upto step_ids_upto reqs 0 _ [] Hs0)
    as (resps & w' & todos & Hserve & Hl & Hs & Hb & Hn).
  { split; constructor. }
  exists (saved [] w), resps, w', todos.
  split; [exact Hstart|]. split; [exact Hserve|]. split; [exact Hl|]. split; [exact Hs|].
  split; [exact Hn|]. eapply Forall_impl; [|exact Hb]. intros t [H _]. exact H.
Qed.

Lemma step_clean_titles (k : nat) w todos req resp w' todos' :
  step w todos req resp w' todos' -> Forall clean_title todos -> Forall clean_title todos'.
Proof.
  assert (Htrim : forall s t, title t = trim s -> clean_title t).
  { intros s t E. unfold clean_title. rewrite E.
    destruct (trim_spec s) as (_ & _ & _ & _ & _ & H1 & H2). auto. }
  intros Hst Hc.
  destruct Hst as [rq r _ | body t s _ Ht | p body l1 x y l2 E _ _ Hy | p l1 x l2 E].
  - exact Hc.
  - apply Forall_app. split; [exact Hc|].
    constructor; [eapply Htrim, Ht | constructor].
  - subst todos. apply Forall_app in Hc as [H1 H2]. apply Forall_app. split; [exact H1|].
    inversion H2; subst. constructor; [|assumption].
    destruct Hy as [Hy|(s & Hy)]; [|eapply Htrim, Hy].
    unfold clean_title. rewrite Hy. assumption.
  - subst todos. apply Forall_app in Hc as [H1 H2]. apply Forall_app. split; [exact H1|].
    eapply Forall_inv_tail; exact H2.
Qed.

(** X22. Starting with no data file, after the start-up check and any sequence
    of requests no stored title begins or ends with white space: trimming
    a stored title gives the title itself. *)
Theorem reachable_titles_are_trimmed w reqs :
  fresh w ->
  exists w0 resps w' todos,
    startup w = Ret tt w0
    /\ serve reqs w0 = Some (resps, w')
    /\ stored w' todos
    /\ Forall (fun t => starts_space (title t) = false
                        /\ ends_space (title t) = false
                        /\ trim (title t) = title t) todos.
Proof.
  intros Hfresh. destruct (startup_fresh w Hfresh) as [Hstart Hs0].
  destruct (serve_invariant (fun _ => Forall clean_title) step_clean_titles
              reqs 0 _ [] Hs0)
    as (resps & w' & todos & Hserve & _ & Hs & Hc).
  { constructor. }
  exists (saved [] w), resps, w', todos. repeat split; auto.
  eapply Forall_impl; [|exact Hc]. intros t [H1 H2]. repeat split; auto.
  apply trim_clean; assumption.
Qed.

Lemma next_id_after_sequence k todos :
  (Z.of_nat k <= MAX_SAFE_INTEGER)%Z ->
  map id todos = map Z.of_nat (seq 1 k) -> next_id todos = Z.of_nat (S k).
Proof.
  intros Hk E.
  assert (Hsafe : safe_ids todos).
  { apply (ids_within_safe k); [exact Hk|]. apply Forall_forall. intros t Ht.
    assert (Hin : In (id t) (map Z.of_nat (seq 1 k))) by (rewrite <- E; apply in_map, Ht).
    apply in_map_iff in Hin as (i & <- & Hi). apply in_seq in Hi. lia. }
  destruct (next_id_spec todos Hsafe) as [H0 H1].
  destruct k as [|k].
  - destruct todos; [|discriminate E]. apply H0. reflexivity.
  - destruct H1 as (m & Hin & Hmax & ->); [intros ->; discriminate E|].
    assert (Hle : (m <= Z.of_nat (S k))%Z).
    { rewrite E in Hin. apply in_map_iff in Hin as (i & <- & Hi).
      apply in_seq in Hi. lia. }
    assert (Hge : (Z.of_nat (S k) <= m)%Z).
    { assert (Hlast : In (Z.of_nat (S k)) (map id todos)).
      { rewrite E. apply in_map, in_seq. lia. }
      apply in_map_iff in Hlast as (u & <- & Hu). apply Hmax, Hu. }
    lia.
Qed.

(** X23. On an empty stored collection a sequence of POSTs with valid titles is
    answered 201 throughout and stores one todo for each; the created
    todos receive the ids 1, 2, ..., k in the order of the requests, as
    long as k is a safe integer. *)
Theorem creations_number_from_one now bodies : forall w,
  stored w [] -> write_fault w = None ->
  forallb valid_title bodies = true ->
  exists resps w' todos,
    serve (post_all now bodies) w = Some (resps, w')
    /\ stored w' todos
    /\ List.length todos = List.length bodies
    /\ ((Z.of_nat (List.length bodies) <= MAX_SAFE_INTEGER)%Z ->
        map id todos = map Z.of_nat (seq 1 (List.length bodies)))
    /\ resps = map created_response todos.
Proof.
  assert (Hgen : forall bodies w todos,
    stored w todos -> write_fault w = None ->
    forallb valid_title bodies = true ->
    exists resps w' added,
      serve (post_all now bodies) w = Some (resps, w')
      /\ stored w' (todos ++ added)
      /\ write_fault w' = None
      /\ List.length added = List.length bodies
      /\ ((Z.of_nat (List.length todos + List.length bodies) <= MAX_SAFE_INTEGER)%Z ->
          map id todos = map Z.of_nat (seq 1 (List.length todos)) ->
          map id (todos ++ added)
          = map Z.of_nat (seq 1 (List.length todos + List.length bodies)))
      /\ resps = map created_response added).
  { clear bodies. induction bodies as [|body bodies IH]; intros w todos Hs Hw Hv.
    - exists [], w, []. cbn [serve post_all map List.length].
      rewrite app_nil_r, Nat.add_0_r. auto 7.
    - cbn [forallb] in Hv. apply andb_true_iff in Hv as [Hb Hv].
      pose proof (stored_read_fault w todos Hs) as Hr.
      set (t := new_todo now todos body).
      assert (Hpost : handle now (POST_todo body) w
                      = Ret (created_response t) (saved (todos ++ [t]) w)).
      { cbn [handle]. rewrite (post_todo_stored now w todos body Hs), Hw.
        unfold valid_title in Hb. apply andb_true_iff in Hb as [-> ->]. reflexivity. }
      destruct (IH (saved (todos ++ [t]) w) (todos ++ [t])
                  (stored_saved w _ Hr) Hw Hv)
        as (rs & w' & added & Hserve & Hs' & Hw' & Hlen & Hids & Hrs).
      exists (created_response t :: rs), w', (t :: added).
      cbn [post_all map serve]. rewrite Hpost.
      change (map (fun body0 => (now, POST_todo body0)) bodies) with (post_all now bodies).
      rewrite Hserve. rewrite <- app_assoc in Hs', Hids. cbn [app] in Hs', Hids.
      cbn [List.length]. rewrite Hlen, Hrs.
      split; [reflexivity|]. split; [exact Hs'|]. split; [exact Hw'|].
      split; [reflexivity|]. split; [|reflexivity].
      intros Hk Hid.
      rewrite length_app in Hids. cbn [List.length] in Hids.
      replace (List.length todos + S (List.length bodies))%nat
        with (List.length todos + 1 + List.length bodies)%nat by lia.
      apply Hids; [lia|].
      rewrite map_app. cbn [List.length map].
      rewrite Nat.add_1_r, seq_S, map_app, <- Hid. cbn [map]. f_equal. f_equal.
      change (id t) with (next_id todos).
      assert (Hlt : (Z.of_nat (List.length todos) <= MAX_SAFE_INTEGER)%Z) by lia.
      rewrite (next_id_after_sequence _ _ Hlt Hid). f_equal. }
  intros w Hs Hw Hv.
  destruct (Hgen bodies w [] Hs Hw Hv) as (rs & w' & added & H1 & H2 & _ & H3 & H4 & H5).
  exists rs, w', added. split; [exact H1|]. split; [exact H2|]. split; [exact H3|].
  split; [|exact H5]. intros Hk. apply H4; [exact Hk | reflexivity].
Qed.

(** X24. PUT /todo/:id for a safe integer id that no stored todo has answers 404
    naming the id and changes nothing, whatever the body (the body is not
    looked at before the todo is found). *)
Theorem put_todo_absent_id w todos p n body :
  stored w todos -> parseInt p = Some n -> is_safe_integer n = true ->
  ~ In n (map id todos) ->
  put_todo p body w = Ret (failure 404 (MsgUpdateMissing (Some n))) w.
Proof.
  intros Hs Hp _ Hn. rewrite <- Hp. apply (put_todo_missing w todos p body Hs).
  intros t Ht. rewrite Hp. cbn [id_is]. apply Z.eqb_neq. intros E.
  apply Hn. rewrite <- E. apply in_map, Ht.
Qed.

(* ================================================================= *)
(** ** The further theorems at sample inputs *)

Lemma get_todo_finds_first_witness :
  get_todo (lit "12") (world_of [todo12])
  = Ret {| status := 200; success := true; msg := None;
           count := None; data := Some (OneTodo todo12) |} (world_of [todo12])
  /\ get_todo (lit "7") (world_of [todo12])
     = Ret (failure 404 (MsgNotFound (Some 7%Z))) (world_of [todo12]).
Proof.
  split.
  - apply (proj1 (get_todo_finds_first (world_of [todo12]) [] todo12 [] [] (lit "12") 12%Z
                    eq_refl eq_refl));
      [vm_compute; reflexivity | reflexivity | intros u []].
  - apply (proj2 (get_todo_finds_first (world_of [todo12]) [] todo12 [] [todo12] (lit "7")
                    7%Z eq_refl eq_refl));
      [vm_compute; reflexivity | intros [H|[]]; discriminate H].
Defined.

Lemma get_never_writes_witness :
  (exists r, get_todos broken_file = Ret r broken_file /\ status r = 500%nat)
  /\ (exists r, get_todo (lit "12") broken_file = Ret r broken_file
                /\ status r = 500%nat).
Proof.
  destruct (get_never_writes broken_file (lit "[{oops") (lit "12") eq_refl
              ltac:(vm_compute; reflexivity))
    as [(r1 & H1 & _ & E1) (r2 & H2 & _ & E2)].
  split; [exists r1 | exists r2]; (split; [assumption|]);
    [apply E1 | apply E2]; vm_compute; reflexivity.
Defined.

Lemma handle_answers_well_formed_witness :
  exists resp w',
    handle sample_now (PUT_todo (lit "12") body_numeric_title) unreadable = Ret resp w'
    /\ well_formed_response resp = true.
Proof. apply handle_answers_well_formed. vm_compute. reflexivity. Defined.

Lemma get_on_missing_file_witness :
  get_todos no_file
  = Ret {| status := 200; success := true; msg := None;
           count := Some 0%nat; data := Some (Todos []) |} (world_of [])
  /\ get_todo (lit "1") no_file
     = Ret (failure 404 (MsgNotFound (Some 1%Z))) (world_of []).
Proof.
  destruct (get_on_missing_file no_file (lit "1") eq_refl eq_refl eq_refl)
    as (H1 & H2 & _).
  split; [exact H1 | exact H2].
Defined.

Lemma read_fault_is_reported_witness :
  readTodosFromFile unreadable = Throw (ReadFailed (FsError (Fault EACCES))) unreadable
  /\ get_todos unreadable
     = Ret (failure 500 (MsgError (ReadFailed (FsError (Fault EACCES))))) unreadable.
Proof.
  destruct (read_fault_is_reported unreadable (JSON_stringify [todo12]) EACCES
              eq_refl eq_refl) as [H1 H2].
  split; [exact H1 | exact (H2 sample_now GET_todos eq_refl)].
Defined.

Lemma missing_file_not_creatable_witness :
  readTodosFromFile no_file_read_only
  = Throw (WriteFailed (FsError (Fault EROFS))) no_file_read_only
  /\ get_todos no_file_read_only
     = Ret (failure 500 (MsgError (WriteFailed (FsError (Fault EROFS)))))
           no_file_read_only.
Proof.
  destruct (missing_file_not_creatable no_file_read_only EROFS eq_refl eq_refl)
    as [H1 H2].
  split; [exact H1 | exact (H2 sample_now GET_todos eq_refl)].
Defined.

Lemma write_failure_changes_nothing_witness :
  post_todo sample_now (body_with_title "buy milk") read_only
  = Ret (failure 500 (MsgError (WriteFailed (FsError (Fault EROFS))))) read_only
  /\ put_todo (lit "12") body_not_completed read_only
     = Ret (failure 500 (MsgError (WriteFailed (FsError (Fault EROFS))))) read_only
  /\ delete_todo (lit "12") read_only
     = Ret (failure 500 (MsgError (WriteFailed (FsError (Fault EROFS))))) read_only.
Proof.
  destruct (write_failure_changes_nothing sample_now read_only [todo12] EROFS
              ltac:(vm_compute; reflexivity) eq_refl eq_refl) as (H1 & H2 & H3).
  split; [apply H1; reflexivity|]. split.
  - apply H2; [reflexivity|]. exists todo12. split; [left|]; reflexivity.
  - apply H3. exists todo12. split; [left|]; reflexivity.
Defined.

Lemma failed_request_changes_nothing_witness :
  exists resp w',
    handle sample_now (DELETE_todo (lit "7")) (world_of [todo12]) = Ret resp w'
    /\ (success resp = false -> w' = world_of [todo12])
    /\ (is_get (DELETE_todo (lit "7")) = true -> w' = world_of [todo12]).
Proof.
  apply (failed_request_changes_nothing _ _ _ [todo12]);
    [vm_compute; reflexivity | reflexivity].
Defined.

Lemma request_touches_one_todo_witness :
  exists resp w' todos',
    handle sample_now (PUT_todo (lit "12") body_with_id) (world_of [todo12]) = Ret resp w'
    /\ stored w' todos'
    /\ (todos' = [todo12]
        \/ (exists t, todos' = [todo12] ++ [t]
                      /\ forall u, In u [todo12] -> (id u < id t)%Z)
        \/ (exists l1 x y l2,
              [todo12] = l1 ++ x :: l2 /\ todos' = l1 ++ y :: l2
              /\ id y = id x /\ createTime y = createTime x)
        \/ (exists l1 x l2, [todo12] = l1 ++ x :: l2 /\ todos' = l1 ++ l2)).
Proof.
  apply (request_touches_one_todo _ _ _ [todo12]);
    [vm_compute; reflexivity | reflexivity | repeat constructor].
Defined.

Lemma request_changes_count_witness :
  exists resp w' todos',
    handle sample_now (DELETE_todo (lit "12")) (world_of [todo12]) = Ret resp w'
    /\ stored w' todos'
    /\ List.length todos' = (if success resp then 0 else 1)%nat.
Proof.
  destruct (request_changes_count sample_now (DELETE_todo (lit "12")) (world_of [todo12])
              [todo12] ltac:(vm_compute; reflexivity) eq_refl)
    as (resp & w' & todos' & H1 & H2 & H3 & _).
  exists resp, w', todos'. split; [exact H1|]. split; [exact H2 | exact H3].
Defined.

Lemma created_todo_is_served_witness :
  exists newTodo w',
    post_todo sample_now (body_with_title "buy milk") (world_of [todo12])
    = Ret (created_response newTodo) w'
    /\ get_todo (number_text (id newTodo)) w'
       = Ret {| status := 200; success := true; msg := None;
                count := None; data := Some (OneTodo newTodo) |} w'
    /\ get_todos w'
       = Ret {| status := 200; success := true; msg := None;
                count := Some 2%nat; data := Some (Todos ([todo12] ++ [newTodo])) |} w'.
Proof.
  apply (created_todo_is_served sample_now (world_of [todo12]) [todo12]);
    [vm_compute; reflexivity | reflexivity | repeat constructor | reflexivity].
Defined.




Lemma creations_number_from_one_witness :
  exists resps w' todos,
    serve (post_all sample_now [body_with_title "buy milk"; body_with_title "walk dog"])
      (world_of [])
    = Some (resps, w')
    /\ stored w' todos
    /\ map id todos = [1%Z; 2%Z]
    /\ resps = map created_response todos.
Proof.
  destruct (creations_number_from_one sample_now
              [body_with_title "buy milk"; body_with_title "walk dog"] (world_of []))
    as (resps & w' & todos & Hserve & Hs & _ & Hids & Hresps);
    [vm_compute; reflexivity | reflexivity | reflexivity |].
  exists resps, w', todos. split; [exact Hserve|]. split; [exact Hs|].
  split; [|exact Hresps]. apply Hids. vm_compute. discriminate.
Defined.

Lemma deleted_newest_id_is_reused_witness :
  exists t1 t2 w1 w2 w3,
    post_todo sample_now (body_with_title "buy milk") (world_of [todo12])
    = Ret (created_response t1) w1
    /\ delete_todo (number_text (id t1)) w1 = Ret (deleted_response (Some (id t1))) w2
    /\ post_todo sample_now (body_with_title "walk dog") w2 = Ret (created_response t2) w3
    /\ id t2 = id t1
    /\ stored w3 ([todo12] ++ [t2]).
Proof.
  apply (deleted_newest_id_is_reused sample_now sample_now (world_of [todo12]) [todo12]);
    [vm_compute; reflexivity | reflexivity | repeat constructor | reflexivity
    | reflexivity].
Defined.

Lemma reachable_ids_unique_and_small_witness :
  exists w0 resps w' todos,
    startup no_file = Ret tt w0
    /\ serve sample_requests w0 = Some (resps, w')
    /\ List.length resps = 4%nat
    /\ stored w' todos
    /\ NoDup (map id todos)
    /\ Forall (fun t => (1 <= id t <= 4)%Z) todos.
Proof.
  destruct (reachable_ids_unique_and_small no_file sample_requests)
    as (w0 & resps & w' & todos & Hstart & Hserve & Hlen & Hs & Hnodup & Hids);
    [repeat split|].
  exists w0, resps, w', todos. split; [exact Hstart|]. split; [exact Hserve|].
  split; [exact Hlen|]. split; [exact Hs|]. split; [|exact Hids].
  apply Hnodup. vm_compute. discriminate.
Defined.

Lemma reachable_titles_are_trimmed_witness :
  exists w0 resps w' todos,
    startup no_file = Ret tt w0
    /\ serve sample_requests w0 = Some (resps, w')
    /\ stored w' todos
    /\ Forall (fun t => starts_space (title t) = false
                        /\ ends_space (title t) = false
                        /\ trim (title t) = title t) todos.
Proof.
  apply (reachable_titles_are_trimmed no_file sample_requests).
  repeat split.
Defined.

Lemma post_todo_strips_title_witness :
  exists newTodo w' before after,
    post_todo sample_now (body_with_title " buy milk ") (world_of [todo12])
    = Ret (created_response newTodo) w'
    /\ lit " buy milk " = before ++ title newTodo ++ after
    /\ forallb is_space before = true /\ forallb is_space after = true
    /\ starts_space (title newTodo) = false
    /\ ends_space (title newTodo) = false.
Proof.
  apply (post_todo_strips_title sample_now (world_of [todo12]) [todo12]);
    [vm_compute; reflexivity | reflexivity | reflexivity | discriminate].
Defined.

Lemma post_on_missing_file_witness :
  exists newTodo,
    post_todo sample_now (body_with_title "buy milk") no_file
    = Ret (created_response newTodo) (saved [newTodo] no_file)
    /\ stored (saved [newTodo] no_file) [newTodo]
    /\ id newTodo = 1%Z
    /\ title newTodo = trim (lit "buy milk")
    /\ createTime newTodo = sample_now.
Proof.
  apply (post_on_missing_file sample_now no_file (body_with_title "buy milk"));
    [reflexivity | reflexivity | reflexivity | reflexivity | discriminate].
Defined.

Lemma post_todo_validates_witness :
  exists resp w',
    post_todo sample_now (JObj [ (k_title, JStr []) ]) (world_of [todo12]) = Ret resp w'
    /\ (status resp = 400%nat \/ status resp = 201%nat)
    /\ (status resp = 201%nat <->
        exists c s, b_title (JObj [ (k_title, JStr []) ]) = Some (JStr (c :: s))).
Proof.
  apply (post_todo_validates sample_now (world_of [todo12]) [todo12]);
    [vm_compute; reflexivity | reflexivity].
Defined.


Lemma startup_cases_witness :
  startup (world_of [todo12]) = Ret tt (world_of [todo12])
  /\ startup no_file = Ret tt (world_of [])
  /\ startup broken_file = Throw (ReadFailed JsonSyntaxError) broken_file
  /\ startup no_file_read_only
     = Throw (WriteFailed (FsError (Fault EROFS))) no_file_read_only.
Proof.
  split; [|split; [|split]].
  - apply (proj1 (startup_cases (world_of [todo12])) [todo12]). vm_compute. reflexivity.
  - apply (proj1 (proj2 (startup_cases no_file))); reflexivity.
  - apply (proj1 (proj2 (proj2 (startup_cases broken_file))) (lit "[{oops"));
      [reflexivity | reflexivity | vm_compute; reflexivity].
  - apply (proj2 (proj2 (proj2 (startup_cases no_file_read_only))) EROFS); reflexivity.
Defined.

Lemma put_todo_absent_id_witness :
  put_todo (lit "7") (JObj [ (k_title, JNum 123) ]) (world_of [todo12])
  = Ret (failure 404 (MsgUpdateMissing (Some 7%Z))) (world_of [todo12]).
Proof.
  apply (put_todo_absent_id (world_of [todo12]) [todo12]);
    [vm_compute; reflexivity | reflexivity | reflexivity
    | intros [H|[]]; discriminate H].
Defined.
